(** * Kythe facts extraction for Verilog: scope resolution and signatures

    A shallow embedding of [verilog/tools/kythe/kythe_facts_extractor.h]
    (the [VNameContext] and [ScopeContext] stacks and the definition search)
    and of [IsStorageTypeOfDataTypeSpecified] from [verilog/CST/type.cc],
    together with the properties the specification states about them. *)

From Stdlib Require Import String Ascii DecimalString List Bool Arith Lia.
Import ListNotations.

(** ** Outcomes of a call

    A call either returns, or aborts the process through a failed
    [CHECK] / [ABSL_DIE_IF_NULL], or dereferences a null pointer. *)

Inductive Outcome (A : Type) : Type :=
| Returns (a : A)
| Fatal
| Undefined.

Arguments Returns {A} a.
Arguments Fatal {A}.
Arguments Undefined {A}.

(** Member functions read and write the object they are called on: a method
    of an object of type [S] with result [A] is a state transformer that
    may abort. *)

Definition Method (S A : Type) : Type := S -> Outcome (A * S).

Definition ret {S A : Type} (a : A) : Method S A :=
  fun s => Returns (a, s).

Definition bind {S A B : Type} (m : Method S A) (k : A -> Method S B) : Method S B :=
  fun s =>
    match m s with
    | Returns (a, s') => k a s'
    | Fatal => Fatal
    | Undefined => Undefined
    end.

Definition get {S : Type} : Method S S :=
  fun s => Returns (s, s).

Definition put {S : Type} (s' : S) : Method S unit :=
  fun _ => Returns (tt, s').

Definition die {S A : Type} : Method S A :=
  fun _ => Fatal.

Definition undefined_behaviour {S A : Type} : Method S A :=
  fun _ => Undefined.

Declare Scope method_scope.
Delimit Scope method_scope with method.
Notation "x <- m ;; k" := (bind m (fun x => k))
  (at level 61, m at next level, right associativity) : method_scope.
Notation "m ;;; k" := (bind m (fun _ => k))
  (at level 61, right associativity) : method_scope.
Open Scope method_scope.

(** A method that only reads: whenever it returns, the object is as before. *)

Definition read_only {S A : Type} (m : Method S A) : Prop :=
  forall s a s', m s = Returns (a, s') -> s' = s.

(** A range-for loop whose body may [return] a value out of the enclosing
    function: the elements are visited in order, the first [Some] ends the
    loop. *)

Fixpoint for_each_until {S A B : Type} (range : list A)
    (body : A -> Method S (option B)) : Method S (option B) :=
  match range with
  | [] => ret None
  | x :: rest =>
      r <- body x ;;
      match r with
      | Some b => ret (Some b)
      | None => for_each_until rest body
      end
  end.

(** A vector element together with its index, and the range
    [rbegin() .. rend()] of a vector. *)

Definition indexed {A : Type} (l : list A) : list (nat * A) :=
  combine (seq 0 (length l)) l.

Definition reverse_range {A : Type} (l : list A) : list (nat * A) :=
  rev (indexed l).

(** ** VNames *)

(** Modelled from the spec: the [VName] value type of [kythe_facts.h], which
    has a signature and the provenance fields path, root, corpus, language. *)

Record VName : Type := mkVName {
  signature : string;
  path : string;
  root : string;
  corpus : string;
  language : string
}.

(** [absl::StartsWith(text, prefix)]. *)

Definition StartsWith (text prefix : string) : bool := String.prefix prefix text.

(** A pointer is null or holds its pointee. *)

Definition pointer (A : Type) : Type := option A.

Definition nullptr {A : Type} : pointer A := None.

(** ** AutoPopStack *)

(** Modelled from the spec: [verible::AutoPopStack], whose header is not
    among the sources: a LIFO stack kept in a vector whose back is the top. *)

Definition AutoPopStack (T : Type) : Type := list T.

Module AutoPopStackBase.

(** Modelled from the spec: [top] on an empty stack is a fatal programming
    error; otherwise it is the element pushed last. *)
Definition top {T : Type} : Method (AutoPopStack T) T :=
  stack_ <- get ;;
  match rev stack_ with
  | [] => die
  | value :: _ => ret value
  end.

(** Modelled from the spec: [Push] puts a value on top. *)
Definition Push {T : Type} (value : T) : Method (AutoPopStack T) unit :=
  stack_ <- get ;;
  put (stack_ ++ [value]).

(** Modelled from the spec: [Pop] takes the top away; there has to be one. *)
Definition Pop {T : Type} : Method (AutoPopStack T) unit :=
  stack_ <- get ;;
  match rev stack_ with
  | [] => die
  | _ :: below => put (rev below)
  end.

End AutoPopStackBase.

(** [ABSL_DIE_IF_NULL(p)]: aborts on a null pointer, else yields the
    pointee. *)

Definition ABSL_DIE_IF_NULL {S A : Type} (p : pointer A) : Method S A :=
  match p with
  | None => die
  | Some a => ret a
  end.

(** ** VNameContext: the stack of the VNames of the enclosing entities *)

Module VNameContext.

Definition t : Type := AutoPopStack (pointer VName).

(** [const VName& top() const { return *ABSL_DIE_IF_NULL(base_type::top()); }] *)
Definition top : Method t VName :=
  p <- AutoPopStackBase.top ;;
  ABSL_DIE_IF_NULL p.

End VNameContext.

(** ** ScopeContext: the stack of the scopes in reach

    A scope is a [std::vector<VName>] in the order of declaration. The stack
    holds pointers to the scopes; each scope is a local of one call of the
    visit and is pointed at by one entry of the stack only, so an entry is
    modelled with the vector it points at in place of the address. *)

Definition Scope : Type := list VName.

(** The result of a search points at one element of one scope of the
    stack: the scope by its position from the bottom of the stack, the
    element by its index in the vector. *)

Record Location : Type := mkLocation {
  scope_index : nat;
  vname_index : nat
}.

Module ScopeContext.

Definition t : Type := AutoPopStack (pointer Scope).

(** [std::vector<VName>& top() { return *ABSL_DIE_IF_NULL(base_type::top()); }] *)
Definition top : Method t Scope :=
  p <- AutoPopStackBase.top ;;
  ABSL_DIE_IF_NULL p.

(** [scope->rbegin()]: the scope pointer is dereferenced. *)
Definition dereference (scope : pointer Scope) : Method t Scope :=
  match scope with
  | None => undefined_behaviour
  | Some vnames => ret vnames
  end.

(** [SearchForDefinition]: both loops run over [rbegin() .. rend()]; the
    first VName whose signature starts with the prefix ends the search with
    a pointer to it, and the search ends with [nullptr] when there is none. *)
Definition SearchForDefinition (prefix : string) : Method t (pointer Location) :=
  stack_ <- get ;;
  for_each_until (reverse_range stack_) (fun '(i, scope) =>
    vnames <- dereference scope ;;
    for_each_until (reverse_range vnames) (fun '(j, vname) =>
      if StartsWith (signature vname) prefix
      then ret (Some (mkLocation i j))
      else ret None)).

(** The VName a location of the stack holds. *)
Definition at_location (stack_ : t) (l : Location) : option VName :=
  match nth_error stack_ (scope_index l) with
  | Some (Some vnames) => nth_error vnames (vname_index l)
  | _ => None
  end.

(** [scope_context_.top().push_back(vname)]: the vector the top pointer
    points at grows by one element. *)
Definition push_back_top (vname : VName) : Method t unit :=
  vnames <- top ;;
  stack_ <- get ;;
  put (removelast stack_ ++ [Some (vnames ++ [vname])]).

(** The search order in the words of the specification: scopes from the
    innermost (top of the stack) to the outermost, and within a scope the
    VNames from the most recently declared to the first declared. *)
Definition declarations_latest_first (i : nat) (vnames : Scope)
  : list (Location * VName) :=
  map (fun '(j, vname) => (mkLocation i j, vname)) (rev (indexed vnames)).

Definition search_order (stack_ : t) : list (Location * VName) :=
  concat (map (fun '(i, scope) =>
                 match scope with
                 | Some vnames => declarations_latest_first i vnames
                 | None => []
                 end)
              (rev (indexed stack_))).

Definition first_with_prefix (prefix : string)
    (candidates : list (Location * VName)) : pointer Location :=
  option_map fst
    (find (fun '(_, vname) => StartsWith (signature vname) prefix) candidates).

(** [l1] is looked at before [l2]: it lies in a scope nearer the top, or
    in the same scope and was declared later. *)
Definition searched_before (l1 l2 : Location) : Prop :=
  scope_index l2 < scope_index l1 \/
  (scope_index l1 = scope_index l2 /\ vname_index l2 < vname_index l1).

(** [result] is what the search has to return: the match no other match
    is looked at before, or null when nothing matches. *)
Definition is_first_match (stack_ : t) (prefix : string)
    (result : pointer Location) : Prop :=
  match result with
  | Some l =>
      (exists vname, at_location stack_ l = Some vname /\
                     StartsWith (signature vname) prefix = true) /\
      (forall l' vname', at_location stack_ l' = Some vname' ->
                         searched_before l' l ->
                         StartsWith (signature vname') prefix = false)
  | None =>
      forall l' vname', at_location stack_ l' = Some vname' ->
                        StartsWith (signature vname') prefix = false
  end.

(** No VName of the stack has a signature that starts with [prefix]. *)
Definition no_match (stack_ : t) (prefix : string) : Prop :=
  forall l vname, at_location stack_ l = Some vname ->
                  StartsWith (signature vname) prefix = false.

(** Every scope pointer of the stack points at a scope. *)
Definition no_null_scope (stack_ : t) : Prop :=
  Forall (fun p : pointer Scope => p <> None) stack_.

(** The top scope grown by some VNames; a stack without a top scope is
    left as it is. *)
Definition extend_top (stack_ : t) (added : list VName) : t :=
  match rev stack_ with
  | Some vnames :: below => rev below ++ [Some (vnames ++ added)]
  | _ => stack_
  end.

End ScopeContext.

(** ** Signatures

    The header declares the three functions and gives their bodies nowhere.
    A signature is the name followed by the tag of its kind, as in the
    header's example [x#variable#foo#module]. *)

(** Modelled from the spec: [CreateModuleSignature], [name#module]. *)
Definition CreateModuleSignature (module_name : string) : string :=
  (module_name ++ "#module")%string.

(** Modelled from the spec: [CreateClassSignature], [name#class]. *)
Definition CreateClassSignature (class_name : string) : string :=
  (class_name ++ "#class")%string.

(** Modelled from the spec: [CreateVariableSignature], [name#variable]. *)
Definition CreateVariableSignature (instance_name : string) : string :=
  (instance_name ++ "#variable")%string.

(** ** The indexing facts tree

    The tree of [indexing_facts_tree.h], which is not among the sources. *)

(** Modelled from the spec: the kinds of nodes; [kUnrecognized] stands for
    any kind the extractor does not act on. *)
Inductive IndexingFactType : Type :=
| kFile
| kModule
| kModuleInstance
| kClass
| kClassInstance
| kVariableDefinition
| kVariableReference
| kUnrecognized.

(** Modelled from the spec: an anchor is a span of the source text with its
    text. *)
Record Anchor : Type := mkAnchor {
  start_location : nat;
  end_location : nat;
  value : string
}.

#[local] Unset Elimination Schemes.

(** Modelled from the spec: a node has a kind, anchors and ordered
    children. *)
Inductive IndexingFactNode : Type :=
| Node (kind : IndexingFactType) (anchors : list Anchor)
       (children : list IndexingFactNode).

#[local] Set Elimination Schemes.

(** Induction on the tree: a property holds of every node when it holds
    of a node whose children all have it. *)

Section IndexingFactNode_induction.

Variable P : IndexingFactNode -> Prop.

Hypothesis P_Node :
  forall kind anchors children,
    Forall P children -> P (Node kind anchors children).

Fixpoint IndexingFactNode_ind (node : IndexingFactNode) : P node :=
  match node with
  | Node kind anchors children =>
      P_Node kind anchors children
        ((fix all (nodes : list IndexingFactNode) : Forall P nodes :=
            match nodes with
            | [] => Forall_nil P
            | child :: rest =>
                Forall_cons child (IndexingFactNode_ind child) (all rest)
            end) children)
  end.

End IndexingFactNode_induction.

Definition node_kind (node : IndexingFactNode) : IndexingFactType :=
  match node with Node kind _ _ => kind end.

Definition node_anchors (node : IndexingFactNode) : list Anchor :=
  match node with Node _ anchors _ => anchors end.

(** ** What the extractor writes *)

(** Modelled from the spec: a fact is a VName with an attribute and its
    value, an edge is a VName, an edge kind and a target VName. The text of
    a record is left to the formatter. *)

Inductive Entry : Type :=
| FactEntry (vname : VName) (fact_name fact_value : string)
| EdgeEntry (source : VName) (edge_name : string) (target : VName).

Definition is_edge_named (name : string) (entry : Entry) : bool :=
  match entry with
  | EdgeEntry _ edge_name _ => String.eqb edge_name name
  | FactEntry _ _ _ => false
  end.

(** Modelled from the spec: what it leaves to the implementation, that is
    the provenance fields, and how the signatures of the file and of an
    anchor are derived from the file path and from the file signature and
    the span. *)

Record Configuration : Type := mkConfiguration {
  configured_root : string;
  configured_corpus : string;
  configured_language : string;
  file_signature : string -> string;
  anchor_signature : string -> nat -> nat -> string
}.

(** How often each stack was pushed and popped. No operation reads the
    counts; they are kept to state the balance of the traversal. *)

Record StackOperations : Type := mkStackOperations {
  vname_pushes : nat;
  vname_pops : nat;
  scope_pushes : nat;
  scope_pops : nat
}.

(** ** KytheFactsExtractor

    The members of the class as the header has them; the stream holds the
    records written so far. *)

Record KytheFactsExtractor : Type := mkKytheFactsExtractor {
  file_path_ : string;
  vnames_context_ : VNameContext.t;
  scope_context_ : ScopeContext.t;
  stream_ : list Entry;
  stack_operations_ : StackOperations
}.

(** The constructor: [KytheFactsExtractor(file_path, stream)]. *)

Definition new_KytheFactsExtractor (file_path : string) (stream : list Entry)
  : KytheFactsExtractor :=
  mkKytheFactsExtractor file_path [] [] stream (mkStackOperations 0 0 0 0).

(** A method of a member, called on the extractor. *)

Definition on_vnames_context {A : Type} (m : Method VNameContext.t A)
  : Method KytheFactsExtractor A :=
  fun e =>
    match m (vnames_context_ e) with
    | Returns (a, stack') =>
        Returns (a, mkKytheFactsExtractor (file_path_ e) stack' (scope_context_ e)
                      (stream_ e) (stack_operations_ e))
    | Fatal => Fatal
    | Undefined => Undefined
    end.

Definition on_scope_context {A : Type} (m : Method ScopeContext.t A)
  : Method KytheFactsExtractor A :=
  fun e =>
    match m (scope_context_ e) with
    | Returns (a, stack') =>
        Returns (a, mkKytheFactsExtractor (file_path_ e) (vnames_context_ e) stack'
                      (stream_ e) (stack_operations_ e))
    | Fatal => Fatal
    | Undefined => Undefined
    end.

Definition write (entry : Entry) : Method KytheFactsExtractor unit :=
  fun e =>
    Returns (tt, mkKytheFactsExtractor (file_path_ e) (vnames_context_ e)
                   (scope_context_ e) (stream_ e ++ [entry]) (stack_operations_ e)).

Definition count (f : StackOperations -> StackOperations)
  : Method KytheFactsExtractor unit :=
  fun e =>
    Returns (tt, mkKytheFactsExtractor (file_path_ e) (vnames_context_ e)
                   (scope_context_ e) (stream_ e) (f (stack_operations_ e))).

Definition count_vname_push (c : StackOperations) : StackOperations :=
  mkStackOperations (S (vname_pushes c)) (vname_pops c) (scope_pushes c) (scope_pops c).

Definition count_vname_pop (c : StackOperations) : StackOperations :=
  mkStackOperations (vname_pushes c) (S (vname_pops c)) (scope_pushes c) (scope_pops c).

Definition count_scope_push (c : StackOperations) : StackOperations :=
  mkStackOperations (vname_pushes c) (vname_pops c) (S (scope_pushes c)) (scope_pops c).

Definition count_scope_pop (c : StackOperations) : StackOperations :=
  mkStackOperations (vname_pushes c) (vname_pops c) (scope_pushes c) (S (scope_pops c)).

Section Extractor.

Variable conf : Configuration.

Definition MakeVName (file_path sig : string) : VName :=
  mkVName sig file_path (configured_root conf) (configured_corpus conf)
          (configured_language conf).

Definition read_file_path : Method KytheFactsExtractor string :=
  fun e => Returns (file_path_ e, e).

(** Modelled from the spec: [GenerateFactString] writes one fact and
    changes nothing else. *)

Definition GenerateFactString (vname : VName) (name fact_value : string)
  : Method KytheFactsExtractor unit :=
  write (FactEntry vname name fact_value).

(** Modelled from the spec: [GenerateEdgeString] writes one edge and
    changes nothing else. *)

Definition GenerateEdgeString (source : VName) (name : string) (target : VName)
  : Method KytheFactsExtractor unit :=
  write (EdgeEntry source name target).

(** Modelled from the spec: [CreateScopeRelativeSignature], whose body the
    header does not give: the local signature joined to the signature of
    the VName on top of [vnames_context_], as in [x#variable#foo#module]. *)

Definition CreateScopeRelativeSignature (local_signature : string)
  : Method KytheFactsExtractor string :=
  enclosing <- on_vnames_context VNameContext.top ;;
  ret (local_signature ++ "#" ++ signature enclosing)%string.

(** Modelled from the spec: [PrintAnchorVName], which derives the VName of
    an anchor from the file and the two offsets and writes the anchor
    node. *)

Definition PrintAnchorVName (anchor : Anchor) (label : string)
  : Method KytheFactsExtractor VName :=
  file_path <- read_file_path ;;
  let anchor_vname :=
    MakeVName file_path (anchor_signature conf (file_signature conf file_path)
                           (start_location anchor) (end_location anchor)) in
  GenerateFactString anchor_vname "node/kind" "anchor" ;;;
  ret anchor_vname.

(** The VName [PrintAnchorVName] gives an anchor. *)

Definition anchor_vname_of (e : KytheFactsExtractor) (anchor : Anchor) : VName :=
  MakeVName (file_path_ e)
    (anchor_signature conf (file_signature conf (file_path_ e))
       (start_location anchor) (end_location anchor)).

(** The VName of an entity with the local signature [local_signature]
    declared inside the entity [enclosing]. *)

Definition vname_inside (e : KytheFactsExtractor) (enclosing : VName)
    (local_signature : string) : VName :=
  MakeVName (file_path_ e) (local_signature ++ "#" ++ signature enclosing)%string.

(** Modelled from the spec: an anchor the extractor expects its node to
    have; a node without it breaks the contract of the tree's producer,
    which is fatal. *)

Definition expected_anchor (node : IndexingFactNode) (i : nat)
  : Method KytheFactsExtractor Anchor :=
  match nth_error (node_anchors node) i with
  | Some anchor => ret anchor
  | None => die
  end.

(** [*found]: the VName a search result points at. *)

Definition found_vname (found : Location) : Method KytheFactsExtractor VName :=
  stack_ <- on_scope_context get ;;
  match ScopeContext.at_location stack_ found with
  | Some vname => ret vname
  | None => undefined_behaviour
  end.

(** Modelled from the spec: the guards [VNameContext::AutoPop] and
    [ScopeContext::AutoPop]; the constructor pushes, the destructor pops. *)

Definition vnames_auto_pop_enter (vname : VName) : Method KytheFactsExtractor unit :=
  on_vnames_context (AutoPopStackBase.Push (Some vname)) ;;;
  count count_vname_push.

Definition vnames_auto_pop_leave : Method KytheFactsExtractor unit :=
  on_vnames_context AutoPopStackBase.Pop ;;;
  count count_vname_pop.

Definition scope_auto_pop_enter (scope : Scope) : Method KytheFactsExtractor unit :=
  on_scope_context (AutoPopStackBase.Push (Some scope)) ;;;
  count count_scope_push.

Definition scope_auto_pop_leave : Method KytheFactsExtractor unit :=
  on_scope_context AutoPopStackBase.Pop ;;;
  count count_scope_pop.

(** Modelled from the spec: the scope of a node that has been resolved is
    added to the containing scope, the scope on top of the stack once the
    node's own scope is popped; below a file there is none, and nothing is
    added. *)

Definition add_to_containing_scope (resolved : Scope) : Method KytheFactsExtractor unit :=
  stack_ <- on_scope_context get ;;
  match stack_ with
  | [] => ret tt
  | _ :: _ =>
      containing <- on_scope_context ScopeContext.top ;;
      on_scope_context (put (removelast stack_ ++ [Some (containing ++ resolved)]))
  end.

(** Modelled from the spec: entering a scope-introducing node pushes its
    VName and a fresh empty scope and the children are visited; on the way
    out both are popped, the guard declared last first, and what the node's
    scope holds by then is added to the containing scope, where the nodes
    visited later find it. *)

Definition in_new_scope (vname : VName) (visit_children : Method KytheFactsExtractor unit)
  : Method KytheFactsExtractor unit :=
  vnames_auto_pop_enter vname ;;;
  scope_auto_pop_enter [] ;;;
  visit_children ;;;
  current_scope <- on_scope_context ScopeContext.top ;;
  scope_auto_pop_leave ;;;
  vnames_auto_pop_leave ;;;
  add_to_containing_scope current_scope.

(** The operations per kind of node, each returning the VName it made; the
    header declares them and [kythe_facts_extractor.cc], which defines them,
    is not among the sources. *)

(** Modelled from the spec: a file gets a VName whose signature is derived
    from the file path, and the fact that it is a file. *)
Definition ExtractFileFact (node : IndexingFactNode) : Method KytheFactsExtractor VName :=
  file_path <- read_file_path ;;
  let file_vname := MakeVName file_path (file_signature conf file_path) in
  GenerateFactString file_vname "node/kind" "file" ;;;
  ret file_vname.

(** Modelled from the spec: a module gets the scope-relative signature of
    its name, the fact of its kind and a "childof" edge to the enclosing
    entity. *)
Definition ExtractModuleFact (node : IndexingFactNode) : Method KytheFactsExtractor VName :=
  module_name <- expected_anchor node 0 ;;
  sig <- CreateScopeRelativeSignature (CreateModuleSignature (value module_name)) ;;
  file_path <- read_file_path ;;
  let module_vname := MakeVName file_path sig in
  GenerateFactString module_vname "node/kind" "record/module" ;;;
  enclosing <- on_vnames_context VNameContext.top ;;
  GenerateEdgeString module_vname "childof" enclosing ;;;
  ret module_vname.

(** Modelled from the spec: a class, as a module. *)
Definition ExtractClassFact (node : IndexingFactNode) : Method KytheFactsExtractor VName :=
  class_name <- expected_anchor node 0 ;;
  sig <- CreateScopeRelativeSignature (CreateClassSignature (value class_name)) ;;
  file_path <- read_file_path ;;
  let class_vname := MakeVName file_path sig in
  GenerateFactString class_vname "node/kind" "record/class" ;;;
  enclosing <- on_vnames_context VNameContext.top ;;
  GenerateEdgeString class_vname "childof" enclosing ;;;
  ret class_vname.

(** Modelled from the spec: an instance; the first anchor names the
    instantiated type, the second the instance. The edge to the type is
    written when the search finds it, and left out otherwise. *)

Definition extract_instance (type_signature : string -> string)
    (node : IndexingFactNode) : Method KytheFactsExtractor VName :=
  type_name <- expected_anchor node 0 ;;
  instance_name <- expected_anchor node 1 ;;
  sig <- CreateScopeRelativeSignature (CreateVariableSignature (value instance_name)) ;;
  file_path <- read_file_path ;;
  let instance_vname := MakeVName file_path sig in
  GenerateFactString instance_vname "node/kind" "variable" ;;;
  definition <- on_scope_context
                  (ScopeContext.SearchForDefinition (type_signature (value type_name))) ;;
  match definition with
  | Some found =>
      type_vname <- found_vname found ;;
      GenerateEdgeString instance_vname "instantiates" type_vname
  | None => ret tt
  end ;;;
  ret instance_vname.

(** Modelled from the spec: an instance of a module. *)
Definition ExtractModuleInstanceFact : IndexingFactNode -> Method KytheFactsExtractor VName :=
  extract_instance CreateModuleSignature.

(** Modelled from the spec: an instance of a class. *)
Definition ExtractClassInstances : IndexingFactNode -> Method KytheFactsExtractor VName :=
  extract_instance CreateClassSignature.

(** Modelled from the spec: a variable gets the scope-relative signature of
    its name, the fact of its kind and a "childof" edge, is appended to the
    top scope, and its anchor is bound to it by "defines/binding". *)
Definition ExtractVariableDefinitionFact (node : IndexingFactNode)
  : Method KytheFactsExtractor VName :=
  variable_name <- expected_anchor node 0 ;;
  sig <- CreateScopeRelativeSignature (CreateVariableSignature (value variable_name)) ;;
  file_path <- read_file_path ;;
  let variable_vname := MakeVName file_path sig in
  GenerateFactString variable_vname "node/kind" "variable" ;;;
  enclosing <- on_vnames_context VNameContext.top ;;
  GenerateEdgeString variable_vname "childof" enclosing ;;;
  on_scope_context (ScopeContext.push_back_top variable_vname) ;;;
  anchor_vname <- PrintAnchorVName variable_name sig ;;
  GenerateEdgeString anchor_vname "defines/binding" variable_vname ;;;
  ret variable_vname.

(** Modelled from the spec: a reference searches the scopes for the bare
    variable signature of its name and writes its anchor; the "ref" edge to
    the definition is written when the search finds one. *)
Definition ExtractVariableReferenceFact (node : IndexingFactNode)
  : Method KytheFactsExtractor VName :=
  variable_name <- expected_anchor node 0 ;;
  let sig := CreateVariableSignature (value variable_name) in
  definition <- on_scope_context (ScopeContext.SearchForDefinition sig) ;;
  anchor_vname <- PrintAnchorVName variable_name sig ;;
  match definition with
  | Some found =>
      variable_vname <- found_vname found ;;
      GenerateEdgeString anchor_vname "ref" variable_vname
  | None => ret tt
  end ;;;
  ret anchor_vname.

(** Modelled from the spec: [Visit], one depth-first walk that acts by
    the kind of the node. File, module and class nodes open a scope for
    their children; the other kinds leave the stacks to their children as
    they are. A module or a class appends its own VName to the enclosing
    scope before its children are visited; when they have been visited its
    own scope is popped and added to the enclosing scope. *)

Fixpoint Visit (node : IndexingFactNode) : Method KytheFactsExtractor unit :=
  match node with
  | Node kind _ children =>
      let visit_children :=
        (fix visit_all (nodes : list IndexingFactNode) : Method KytheFactsExtractor unit :=
           match nodes with
           | [] => ret tt
           | child :: rest => Visit child ;;; visit_all rest
           end) children in
      match kind with
      | kFile =>
          vname <- ExtractFileFact node ;;
          in_new_scope vname visit_children
      | kModule =>
          vname <- ExtractModuleFact node ;;
          on_scope_context (ScopeContext.push_back_top vname) ;;;
          in_new_scope vname visit_children
      | kClass =>
          vname <- ExtractClassFact node ;;
          on_scope_context (ScopeContext.push_back_top vname) ;;;
          in_new_scope vname visit_children
      | kModuleInstance =>
          ExtractModuleInstanceFact node ;;;
          visit_children
      | kClassInstance =>
          ExtractClassInstances node ;;;
          visit_children
      | kVariableDefinition =>
          ExtractVariableDefinitionFact node ;;;
          visit_children
      | kVariableReference =>
          ExtractVariableReferenceFact node ;;;
          visit_children
      | kUnrecognized =>
          visit_children
      end
  end.

(** Modelled from the spec: the visit of nodes one after the other, as
    [Visit] visits the children of a node. *)
Fixpoint VisitAll (nodes : list IndexingFactNode) : Method KytheFactsExtractor unit :=
  match nodes with
  | [] => ret tt
  | child :: rest => Visit child ;;; VisitAll rest
  end.

End Extractor.

(** ** The effect of a visit

    The extractor after a visit that added [added] to the top scope, wrote
    [emitted] and pushed and popped each stack [k] times. *)

Definition advance (e : KytheFactsExtractor) (added : list VName)
    (emitted : list Entry) (k : nat) : KytheFactsExtractor :=
  mkKytheFactsExtractor
    (file_path_ e) (vnames_context_ e)
    (ScopeContext.extend_top (scope_context_ e) added)
    (stream_ e ++ emitted)
    (mkStackOperations
       (vname_pushes (stack_operations_ e) + k) (vname_pops (stack_operations_ e) + k)
       (scope_pushes (stack_operations_ e) + k) (scope_pops (stack_operations_ e) + k)).

(** A method that, whenever it returns, leaves the stacks as they were up
    to declarations added to the top scope. *)

Definition orderly {A : Type} (m : Method KytheFactsExtractor A) : Prop :=
  forall e a e', m e = Returns (a, e') ->
                 exists added emitted k, e' = advance e added emitted k.

(** A method that, whenever it returns, has done nothing but write. *)

Definition writes_only {A : Type} (m : Method KytheFactsExtractor A) : Prop :=
  forall e a e', m e = Returns (a, e') -> exists emitted, e' = advance e [] emitted 0.

(** The extractor inside a scope: both stacks have a top that is not
    null, and no scope pointer is null. *)

Definition inside_scope (e : KytheFactsExtractor) : Prop :=
  (exists below vname, vnames_context_ e = below ++ [Some vname]) /\
  (exists below vnames, scope_context_ e = below ++ [Some vnames]) /\
  ScopeContext.no_null_scope (scope_context_ e).

(** A method that returns whenever it is called inside a scope, and is
    orderly there. *)

Definition sound {A : Type} (m : Method KytheFactsExtractor A) : Prop :=
  forall e, inside_scope e ->
            exists a added emitted k, m e = Returns (a, advance e added emitted k).

(** The extractor right after the two guards of a scope-introducing node
    were constructed. *)

Definition entered (e : KytheFactsExtractor) (vname : VName) : KytheFactsExtractor :=
  mkKytheFactsExtractor
    (file_path_ e) (vnames_context_ e ++ [Some vname]) (scope_context_ e ++ [Some []])
    (stream_ e)
    (count_scope_push (count_vname_push (stack_operations_ e))).

(** What a reference or an instance writes after its own fact: the edge to
    the definition the search found, or nothing. *)

Definition link_to_definition (stack_ : ScopeContext.t) (source : VName)
    (edge_name : string) (definition : pointer Location) : list Entry :=
  match definition with
  | Some found =>
      match ScopeContext.at_location stack_ found with
      | Some target => [EdgeEntry source edge_name target]
      | None => []
      end
  | None => []
  end.

(** The nodes that have the anchors their kind is read from. *)

Definition expected_anchors (kind : IndexingFactType) : nat :=
  match kind with
  | kFile | kUnrecognized => 0
  | kModule | kClass | kVariableDefinition | kVariableReference => 1
  | kModuleInstance | kClassInstance => 2
  end.

Fixpoint has_expected_anchors (node : IndexingFactNode) : bool :=
  match node with
  | Node kind anchors children =>
      (expected_anchors kind <=? length anchors)
      && forallb has_expected_anchors children
  end.

(** ** verilog/CST/type.cc

    [IsStorageTypeOfDataTypeSpecified] asks [verible::GetSubtreeAsSymbol]
    (of [common/text/tree_utils.h]) for the child at position 0 of a
    [kDataType] node and tests the pointer it gets. The symbols, the node
    tags and that helper are taken as given. *)

Section StorageType.

Variable Symbol : Type.
Variable NodeEnum : Type.
Variable kDataType : NodeEnum.
Variable GetSubtreeAsSymbol : Symbol -> NodeEnum -> nat -> Outcome (pointer Symbol).

Definition is_not_nullptr {A : Type} (p : pointer A) : bool :=
  match p with
  | Some _ => true
  | None => false
  end.

Definition IsStorageTypeOfDataTypeSpecified (symbol : Symbol) : Outcome bool :=
  match GetSubtreeAsSymbol symbol kDataType 0 with
  | Returns storage => Returns (is_not_nullptr storage)
  | Fatal => Fatal
  | Undefined => Undefined
  end.

End StorageType.

(** A syntax tree to run the function on: leaves and tagged nodes whose
    children may be null, with a helper that insists on a node of the given
    tag that has the asked position. *)

Module SyntaxTreeExample.

Inductive NodeEnum : Type :=
| kDataType
| kDataDeclaration.

Definition NodeEnum_eqb (a b : NodeEnum) : bool :=
  match a, b with
  | kDataType, kDataType => true
  | kDataDeclaration, kDataDeclaration => true
  | _, _ => false
  end.

#[local] Unset Elimination Schemes.

Inductive Symbol : Type :=
| Leaf (text : string)
| SyntaxTreeNode (tag : NodeEnum) (children : list (pointer Symbol)).

#[local] Set Elimination Schemes.

Definition GetSubtreeAsSymbol (symbol : Symbol) (parent_must_be_node_enum : NodeEnum)
    (child_position : nat) : Outcome (pointer Symbol) :=
  match symbol with
  | Leaf _ => Fatal
  | SyntaxTreeNode tag children =>
      if NodeEnum_eqb tag parent_must_be_node_enum
      then match nth_error children child_position with
           | Some child => Returns child
           | None => Fatal
           end
      else Fatal
  end.

End SyntaxTreeExample.

(** ** Inputs to run the definitions on *)

Module Examples.

Definition vname_of (sig : string) : VName :=
  mkVName sig "top.sv" "" "" "verilog".

(** The scopes while inside module [foo] of a file that declares a
    variable [x], then the module [foo], which declares [y] and twice [x]. *)
Definition file_scope : Scope :=
  [vname_of "x#variable#top.sv"; vname_of "foo#module#top.sv"].

Definition foo_scope : Scope :=
  [vname_of "y#variable#foo#module#top.sv";
   vname_of "x#variable#foo#module#top.sv";
   vname_of "x#variable#foo#module#top.sv"].

Definition scopes_in_foo : ScopeContext.t :=
  [Some file_scope; Some foo_scope].

(** A configuration: the file signature is the path, an anchor signature
    is the file signature with the two offsets. *)
Definition conf : Configuration :=
  mkConfiguration "" "" "verilog"
    (fun file_path => file_path)
    (fun file start finish =>
       (file ++ "@" ++ NilZero.string_of_uint (Nat.to_uint start)
             ++ ":" ++ NilZero.string_of_uint (Nat.to_uint finish))%string).

Definition variable_x_in_foo : IndexingFactNode :=
  Node kVariableDefinition [mkAnchor 23 24 "x"] [].

Definition module_foo : IndexingFactNode :=
  Node kModule [mkAnchor 7 10 "foo"] [variable_x_in_foo].

Definition reference_to_x : IndexingFactNode :=
  Node kVariableReference [mkAnchor 60 61 "x"] [].

Definition module_bar : IndexingFactNode :=
  Node kModule [mkAnchor 43 46 "bar"] [reference_to_x].

Definition instance_of_foo : IndexingFactNode :=
  Node kModuleInstance [mkAnchor 50 53 "foo"; mkAnchor 54 65 "inst_of_foo"] [].

Definition instance_of_baz : IndexingFactNode :=
  Node kModuleInstance [mkAnchor 50 53 "baz"; mkAnchor 54 65 "inst_of_baz"] [].

(** Two sibling modules: [foo] declares [x], [bar] refers to [x]. *)
Definition two_modules : IndexingFactNode :=
  Node kFile [] [module_foo; module_bar].

(** Two sibling modules that both declare [x]; [bar] refers to [x] before
    it declares it. *)
Definition variable_x_in_bar : IndexingFactNode :=
  Node kVariableDefinition [mkAnchor 70 71 "x"] [].

Definition module_bar_declaring_x : IndexingFactNode :=
  Node kModule [mkAnchor 43 46 "bar"] [reference_to_x; variable_x_in_bar].

Definition two_modules_declaring_x : IndexingFactNode :=
  Node kFile [] [module_foo; module_bar_declaring_x].

(** [bar] with the reference after its own declaration of [x]. *)
Definition module_bar_referring_late : IndexingFactNode :=
  Node kModule [mkAnchor 43 46 "bar"] [variable_x_in_bar; reference_to_x].

(** The same below a declaration of [x] in the file. *)
Definition two_modules_below_x : IndexingFactNode :=
  Node kFile [] [Node kVariableDefinition [mkAnchor 1 2 "x"] []; module_foo; module_bar].

(** The extractor of [top.sv] when it has entered the file. *)
Definition file_vname : VName := MakeVName conf "top.sv" "top.sv".

Definition in_file : KytheFactsExtractor :=
  entered (new_KytheFactsExtractor "top.sv" []) file_vname.

Definition state_after (node : IndexingFactNode) (e : KytheFactsExtractor)
  : KytheFactsExtractor :=
  match Visit conf node e with
  | Returns (_, e') => e'
  | _ => e
  end.

Definition after_module_foo : KytheFactsExtractor :=
  Eval vm_compute in state_after module_foo in_file.

Definition after_two_modules : KytheFactsExtractor :=
  Eval vm_compute in state_after two_modules (new_KytheFactsExtractor "top.sv" []).

Definition after_two_modules_declaring_x : KytheFactsExtractor :=
  Eval vm_compute in
    state_after two_modules_declaring_x (new_KytheFactsExtractor "top.sv" []).

(** The scope of [bar] once [bar] has declared [x]. *)
Definition scope_of_bar : Scope := [vname_of "x#variable#bar#module#top.sv"].

End Examples.

(** ** Further notions about the search *)

(** A scope pointer the search passes over: it points at a scope, and no
    VName of that scope has a signature that starts with [prefix]. *)

Definition passed_over (prefix : string) (scope : pointer Scope) : Prop :=
  exists vnames,
    scope = Some vnames /\
    Forall (fun vname => StartsWith (signature vname) prefix = false) vnames.

(** The signatures a stack of scopes holds, without the other fields of the
    VNames. *)

Definition signatures_of (stack_ : ScopeContext.t) : list (option (list string)) :=
  map (option_map (map signature)) stack_.

Module SearchExamples.

(** A stack whose bottom pointer is null, below the scope of [foo]. *)
Definition null_below_foo : ScopeContext.t :=
  [nullptr; Some Examples.foo_scope].

(** The scopes inside [foo], and an empty scope entered last. *)
Definition empty_scope_in_foo : ScopeContext.t :=
  [Some Examples.file_scope; Some Examples.foo_scope; Some []].

(** The scopes of [scopes_in_foo] with VNames of another file and corpus. *)
Definition scopes_of_another_file : ScopeContext.t :=
  map (option_map (map (fun vname =>
         mkVName (signature vname) "other.sv" "r" "c" "verilog")))
      Examples.scopes_in_foo.

(** A null pointer below a scope that declares [y] only. *)
Definition null_below_y : ScopeContext.t :=
  [nullptr; Some [Examples.vname_of "y#variable#foo#module#top.sv"]].

End SearchExamples.

(** * Properties *)

(** ** Methods that only read *)

Lemma read_only_ret {S A : Type} (a : A) : read_only (@ret S A a).
Proof. intros s a' s' H. inversion H. reflexivity. Qed.

Lemma read_only_get {S : Type} : read_only (@get S).
Proof. intros s a s' H. inversion H. reflexivity. Qed.

Lemma read_only_bind {S A B : Type} (m : Method S A) (k : A -> Method S B) :
  read_only m -> (forall a, read_only (k a)) -> read_only (bind m k).
Proof.
  intros Hm Hk s b s' H. unfold bind in H.
  destruct (m s) as [[a s1] | | ] eqn:E; try discriminate.
  apply Hm in E. subst s1. exact (Hk a s b s' H).
Qed.

Lemma read_only_for_each_until {S A B : Type} (range : list A)
    (body : A -> Method S (option B)) :
  (forall x, read_only (body x)) -> read_only (for_each_until range body).
Proof.
  intros Hbody. induction range as [| x rest IH]; simpl.
  - apply read_only_ret.
  - apply read_only_bind; [apply Hbody |].
    intros [b |]; [apply read_only_ret | exact IH].
Qed.

Lemma read_only_dereference (scope : pointer Scope) :
  read_only (ScopeContext.dereference scope).
Proof.
  destruct scope as [vnames |]; simpl.
  - apply read_only_ret.
  - intros s a s' H. discriminate.
Qed.

Lemma read_only_SearchForDefinition (prefix : string) :
  read_only (ScopeContext.SearchForDefinition prefix).
Proof.
  unfold ScopeContext.SearchForDefinition.
  apply read_only_bind; [apply read_only_get |].
  intros stack_. apply read_only_for_each_until. intros [i scope].
  apply read_only_bind; [apply read_only_dereference |].
  intros vnames. apply read_only_for_each_until. intros [j vname].
  destruct (StartsWith (signature vname) prefix); apply read_only_ret.
Qed.

(** ** Vectors read with their indices *)

Lemma indexed_from_snoc {A : Type} (l : list A) (x : A) (k : nat) :
  combine (seq k (length (l ++ [x]))) (l ++ [x])
  = combine (seq k (length l)) l ++ [(k + length l, x)].
Proof.
  revert k. induction l as [| y l IH]; intros k; simpl.
  - rewrite Nat.add_0_r. reflexivity.
  - rewrite IH. simpl. rewrite Nat.add_succ_r. reflexivity.
Qed.

Lemma indexed_snoc {A : Type} (l : list A) (x : A) :
  indexed (l ++ [x]) = indexed l ++ [(length l, x)].
Proof. unfold indexed. rewrite indexed_from_snoc. reflexivity. Qed.

Lemma reverse_range_snoc {A : Type} (l : list A) (x : A) :
  reverse_range (l ++ [x]) = (length l, x) :: reverse_range l.
Proof.
  unfold reverse_range. rewrite indexed_snoc, rev_app_distr. reflexivity.
Qed.

(** ** The search computes the first match of the search order *)

Lemma first_with_prefix_app (prefix : string) (c1 c2 : list (Location * VName)) :
  ScopeContext.first_with_prefix prefix (c1 ++ c2)
  = match ScopeContext.first_with_prefix prefix c1 with
    | Some l => Some l
    | None => ScopeContext.first_with_prefix prefix c2
    end.
Proof.
  unfold ScopeContext.first_with_prefix.
  induction c1 as [| [l v] c1 IH]; simpl; [reflexivity |].
  destruct (StartsWith (signature v) prefix); simpl; [reflexivity | exact IH].
Qed.

Lemma search_in_scope (prefix : string) (i : nat) (range : list (nat * VName))
    (stack_ : ScopeContext.t) :
  for_each_until range
    (fun '(j, vname) =>
       if StartsWith (signature vname) prefix
       then ret (Some (mkLocation i j))
       else ret None) stack_
  = Returns (ScopeContext.first_with_prefix prefix
               (map (fun '(j, vname) => (mkLocation i j, vname)) range), stack_).
Proof.
  induction range as [| [j vname] rest IH]; simpl; [reflexivity |].
  unfold bind, ScopeContext.first_with_prefix. simpl.
  destruct (StartsWith (signature vname) prefix) eqn:E; simpl; [reflexivity |].
  exact IH.
Qed.

Lemma search_in_scopes (prefix : string) (range : list (nat * pointer Scope))
    (stack_ : ScopeContext.t) :
  Forall (fun entry => snd entry <> None) range ->
  for_each_until range
    (fun '(i, scope) =>
       vnames <- ScopeContext.dereference scope ;;
       for_each_until (reverse_range vnames)
         (fun '(j, vname) =>
            if StartsWith (signature vname) prefix
            then ret (Some (mkLocation i j))
            else ret None)) stack_
  = Returns (ScopeContext.first_with_prefix prefix
               (concat (map (fun '(i, scope) =>
                               match scope with
                               | Some vnames => ScopeContext.declarations_latest_first i vnames
                               | None => []
                               end) range)), stack_).
Proof.
  induction 1 as [| [i scope] rest Hscope _ IH]; simpl; [reflexivity |].
  destruct scope as [vnames |]; [| now elim Hscope].
  rewrite first_with_prefix_app.
  unfold bind at 1. simpl. unfold bind at 1.
  change (ret vnames stack_) with (Returns (vnames, stack_)). cbv beta iota.
  rewrite search_in_scope.
  unfold ScopeContext.declarations_latest_first, reverse_range.
  destruct (ScopeContext.first_with_prefix prefix
              (map (fun '(j, vname) => (mkLocation i j, vname)) (rev (indexed vnames))))
    as [l |]; [reflexivity |].
  exact IH.
Qed.

Lemma no_null_reverse_range (stack_ : ScopeContext.t) :
  ScopeContext.no_null_scope stack_ ->
  Forall (fun entry => snd entry <> None) (reverse_range stack_).
Proof.
  intros H. apply Forall_forall. intros [i scope] Hin.
  unfold reverse_range, indexed in Hin. apply in_rev, in_combine_r in Hin.
  unfold ScopeContext.no_null_scope in H. rewrite Forall_forall in H.
  exact (H scope Hin).
Qed.

Lemma SearchForDefinition_search_order (prefix : string) (stack_ : ScopeContext.t) :
  ScopeContext.no_null_scope stack_ ->
  ScopeContext.SearchForDefinition prefix stack_
  = Returns (ScopeContext.first_with_prefix prefix (ScopeContext.search_order stack_),
             stack_).
Proof.
  intros H. unfold ScopeContext.SearchForDefinition.
  unfold bind at 1. unfold get. cbv beta iota.
  rewrite search_in_scopes by (apply no_null_reverse_range; exact H).
  reflexivity.
Qed.

(** ** The first match of the search order is the nearest definition *)

Lemma declarations_latest_first_snoc (i : nat) (vnames : Scope) (vname : VName) :
  ScopeContext.declarations_latest_first i (vnames ++ [vname])
  = (mkLocation i (length vnames), vname)
      :: ScopeContext.declarations_latest_first i vnames.
Proof.
  unfold ScopeContext.declarations_latest_first.
  rewrite indexed_snoc, rev_app_distr. reflexivity.
Qed.

Lemma search_order_snoc (below : ScopeContext.t) (scope : pointer Scope) :
  ScopeContext.search_order (below ++ [scope])
  = match scope with
    | Some vnames => ScopeContext.declarations_latest_first (length below) vnames
    | None => []
    end ++ ScopeContext.search_order below.
Proof.
  unfold ScopeContext.search_order.
  rewrite indexed_snoc, rev_app_distr. reflexivity.
Qed.

Lemma search_order_push_back (prefix : string) (below : ScopeContext.t)
    (vnames : Scope) (vname : VName) :
  ScopeContext.first_with_prefix prefix
    (ScopeContext.search_order (below ++ [Some (vnames ++ [vname])]))
  = if StartsWith (signature vname) prefix
    then Some (mkLocation (length below) (length vnames))
    else ScopeContext.first_with_prefix prefix
           (ScopeContext.search_order (below ++ [Some vnames])).
Proof.
  rewrite !search_order_snoc, declarations_latest_first_snoc.
  unfold ScopeContext.first_with_prefix. simpl.
  destruct (StartsWith (signature vname) prefix); reflexivity.
Qed.

Lemma first_in_scope (prefix : string) (i : nat) (vnames : Scope) :
  match ScopeContext.first_with_prefix prefix
          (ScopeContext.declarations_latest_first i vnames) with
  | Some l =>
      scope_index l = i /\
      (exists vname, nth_error vnames (vname_index l) = Some vname /\
                     StartsWith (signature vname) prefix = true) /\
      (forall j vname', nth_error vnames j = Some vname' -> vname_index l < j ->
                        StartsWith (signature vname') prefix = false)
  | None =>
      forall j vname', nth_error vnames j = Some vname' ->
                       StartsWith (signature vname') prefix = false
  end.
Proof.
  induction vnames as [| vname vnames IH] using rev_ind.
  - simpl. intros [| j] vname' H; discriminate.
  - rewrite declarations_latest_first_snoc.
    unfold ScopeContext.first_with_prefix in *. simpl.
    destruct (StartsWith (signature vname) prefix) eqn:Hv; simpl.
    + split; [reflexivity |]. split.
      * exists vname. rewrite nth_error_app2, Nat.sub_diag by lia. now split.
      * intros j vname' Hj Hlt.
        assert (j < length (vnames ++ [vname])) by (apply nth_error_Some; congruence).
        rewrite length_app in H. simpl in H. lia.
    + destruct (find _ (ScopeContext.declarations_latest_first i vnames))
        as [[l v] |]; simpl in *.
      * destruct IH as (Hi & (v0 & Hv0 & Hm) & Hlater).
        split; [exact Hi |]. split.
        -- exists v0. split; [| exact Hm].
           rewrite nth_error_app1; [exact Hv0 |].
           apply nth_error_Some. congruence.
        -- intros j vname' Hj Hlt.
           destruct (Nat.lt_ge_cases j (length vnames)) as [Hin | Hout].
           ++ rewrite nth_error_app1 in Hj by exact Hin. eauto.
           ++ rewrite nth_error_app2 in Hj by exact Hout.
              destruct (j - length vnames) as [| k] eqn:Hk; simpl in Hj.
              ** inversion Hj. subst vname'. exact Hv.
              ** destruct k; discriminate.
      * intros j vname' Hj.
        destruct (Nat.lt_ge_cases j (length vnames)) as [Hin | Hout].
        -- rewrite nth_error_app1 in Hj by exact Hin. eauto.
        -- rewrite nth_error_app2 in Hj by exact Hout.
           destruct (j - length vnames) as [| k] eqn:Hk; simpl in Hj.
           ++ inversion Hj. subst vname'. exact Hv.
           ++ destruct k; discriminate.
Qed.

Lemma at_location_below (below : ScopeContext.t) (scope : pointer Scope) (l : Location) :
  scope_index l < length below ->
  ScopeContext.at_location (below ++ [scope]) l = ScopeContext.at_location below l.
Proof.
  intros H. unfold ScopeContext.at_location. rewrite nth_error_app1 by exact H.
  reflexivity.
Qed.

Lemma at_location_top (below : ScopeContext.t) (scope : pointer Scope) (l : Location) :
  scope_index l = length below ->
  ScopeContext.at_location (below ++ [scope]) l
  = match scope with
    | Some vnames => nth_error vnames (vname_index l)
    | None => None
    end.
Proof.
  intros H. unfold ScopeContext.at_location.
  rewrite nth_error_app2, H, Nat.sub_diag by lia. reflexivity.
Qed.

Lemma at_location_in_stack (stack_ : ScopeContext.t) (l : Location) (vname : VName) :
  ScopeContext.at_location stack_ l = Some vname -> scope_index l < length stack_.
Proof.
  unfold ScopeContext.at_location. intros H. apply nth_error_Some.
  destruct (nth_error stack_ (scope_index l)); [discriminate | discriminate H].
Qed.

Lemma search_order_first_match (prefix : string) (stack_ : ScopeContext.t) :
  ScopeContext.is_first_match stack_ prefix
    (ScopeContext.first_with_prefix prefix (ScopeContext.search_order stack_)).
Proof.
  induction stack_ as [| scope below IH] using rev_ind.
  - simpl. intros [[| i] j] vname' H; discriminate.
  - rewrite search_order_snoc, first_with_prefix_app.
    destruct scope as [vnames |].
    + pose proof (first_in_scope prefix (length below) vnames) as Htop.
      destruct (ScopeContext.first_with_prefix prefix
                  (ScopeContext.declarations_latest_first (length below) vnames))
        as [l |].
      * destruct Htop as (Hi & (v & Hv & Hm) & Hlater). split.
        -- exists v. rewrite at_location_top by exact Hi. now split.
        -- intros l' v' Hl' [Hlt | [Heq Hlt]].
           ++ apply at_location_in_stack in Hl'.
              rewrite length_app in Hl'. simpl in Hl'. lia.
           ++ rewrite at_location_top in Hl' by congruence. eauto.
      * assert (Hnone : forall l' v',
                   ScopeContext.at_location (below ++ [Some vnames]) l' = Some v' ->
                   length below <= scope_index l' ->
                   StartsWith (signature v') prefix = false).
        { intros l' v' Hl' Hge.
          pose proof (at_location_in_stack _ _ _ Hl') as Hin.
          rewrite length_app in Hin. simpl in Hin.
          rewrite at_location_top in Hl' by lia. eauto. }
        destruct (ScopeContext.first_with_prefix prefix (ScopeContext.search_order below))
          as [l |]; simpl in IH |- *.
        -- destruct IH as ((v & Hv & Hm) & Hearlier).
           pose proof (at_location_in_stack _ _ _ Hv) as Hl. split.
           ++ exists v. rewrite at_location_below by exact Hl. now split.
           ++ intros l' v' Hl' Hbefore.
              destruct (Nat.lt_ge_cases (scope_index l') (length below)) as [Hin | Hout].
              ** rewrite at_location_below in Hl' by exact Hin. eauto.
              ** eauto.
        -- intros l' v' Hl'.
           destruct (Nat.lt_ge_cases (scope_index l') (length below)) as [Hin | Hout].
           ++ rewrite at_location_below in Hl' by exact Hin. eauto.
           ++ eauto.
    + simpl.
      assert (Hnone : forall l' v',
                 ScopeContext.at_location (below ++ [None]) l' = Some v' ->
                 scope_index l' < length below).
      { intros l' v' Hl'.
        pose proof (at_location_in_stack _ _ _ Hl') as Hin.
        rewrite length_app in Hin. simpl in Hin.
        destruct (Nat.eq_dec (scope_index l') (length below)) as [Heq | Hne]; [| lia].
        rewrite at_location_top in Hl' by exact Heq. discriminate. }
      destruct (ScopeContext.first_with_prefix prefix (ScopeContext.search_order below))
        as [l |]; simpl in IH |- *.
      * destruct IH as ((v & Hv & Hm) & Hearlier).
        pose proof (at_location_in_stack _ _ _ Hv) as Hl. split.
        -- exists v. rewrite at_location_below by exact Hl. now split.
        -- intros l' v' Hl' Hbefore. pose proof (Hnone _ _ Hl') as Hin.
           rewrite at_location_below in Hl' by exact Hin. eauto.
      * intros l' v' Hl'. pose proof (Hnone _ _ Hl') as Hin.
        rewrite at_location_below in Hl' by exact Hin. eauto.
Qed.

(** The result of a search on a stack without null scopes. *)

Lemma SearchForDefinition_first_match (prefix : string) (stack_ : ScopeContext.t) :
  ScopeContext.no_null_scope stack_ ->
  exists result,
    ScopeContext.SearchForDefinition prefix stack_ = Returns (result, stack_) /\
    ScopeContext.is_first_match stack_ prefix result.
Proof.
  intros H. eexists. split.
  - apply SearchForDefinition_search_order. exact H.
  - apply search_order_first_match.
Qed.

Lemma searched_before_trichotomy (l1 l2 : Location) :
  l1 = l2 \/ ScopeContext.searched_before l1 l2 \/ ScopeContext.searched_before l2 l1.
Proof.
  destruct l1 as [s1 i1], l2 as [s2 i2]. unfold ScopeContext.searched_before. simpl.
  destruct (Nat.lt_total s1 s2) as [H | [H | H]]; [now auto | subst s2 | now auto].
  destruct (Nat.lt_total i1 i2) as [H | [H | H]]; [now auto | subst i2 | now auto].
  left. reflexivity.
Qed.

(** ** C1 *)

(** C1: on every stack of scopes, [SearchForDefinition] goes through the
    scopes from the top of the stack to the bottom and through each scope
    from the latest declaration to the first, and returns the first VName
    whose signature starts with the prefix: its result is the first match
    of that order, no match is looked at before it, and the VName it points
    at has a signature that starts with the prefix. *)
Theorem SearchForDefinition_innermost_latest_first
    (prefix : string) (stack_ : ScopeContext.t) :
  ScopeContext.no_null_scope stack_ ->
  exists result,
    ScopeContext.SearchForDefinition prefix stack_ = Returns (result, stack_) /\
    result = ScopeContext.first_with_prefix prefix (ScopeContext.search_order stack_) /\
    ScopeContext.is_first_match stack_ prefix result /\
    (forall l, result = Some l ->
       exists vname, ScopeContext.at_location stack_ l = Some vname /\
                     StartsWith (signature vname) prefix = true).
Proof.
  intros Hlive. eexists. split; [| split; [reflexivity | split]].
  - apply SearchForDefinition_search_order. exact Hlive.
  - apply search_order_first_match.
  - intros l Hl. pose proof (search_order_first_match prefix stack_) as H.
    rewrite Hl in H. exact (proj1 H).
Qed.

Lemma SearchForDefinition_innermost_latest_first_witness :
  exists result,
    ScopeContext.SearchForDefinition "x#variable" Examples.scopes_in_foo
      = Returns (result, Examples.scopes_in_foo) /\
    result = ScopeContext.first_with_prefix "x#variable"
               (ScopeContext.search_order Examples.scopes_in_foo) /\
    ScopeContext.is_first_match Examples.scopes_in_foo "x#variable" result /\
    (forall l, result = Some l ->
       exists vname, ScopeContext.at_location Examples.scopes_in_foo l = Some vname /\
                     StartsWith (signature vname) "x#variable" = true).
Proof.
  apply (SearchForDefinition_innermost_latest_first "x#variable" Examples.scopes_in_foo).
  unfold ScopeContext.no_null_scope, Examples.scopes_in_foo.
  repeat constructor; discriminate.
Defined.

Example search_in_foo :
  ScopeContext.SearchForDefinition "x#variable" Examples.scopes_in_foo
  = Returns (Some (mkLocation 1 2), Examples.scopes_in_foo).
Proof. reflexivity. Qed.

Example search_reaches_file_scope :
  ScopeContext.SearchForDefinition "foo#module" Examples.scopes_in_foo
  = Returns (Some (mkLocation 0 1), Examples.scopes_in_foo).
Proof. reflexivity. Qed.

Example search_through_null_scope :
  ScopeContext.SearchForDefinition "x#variable" [Some Examples.file_scope; None]
  = Undefined.
Proof. reflexivity. Qed.

(** ** C2 *)

(** C2: when a scope holds two declarations whose signatures start with
    the searched prefix, a search made after both were appended never
    returns the earlier one; and when no match is looked at before the
    later one (it is the latest match of the innermost scope that has one),
    the search returns the later one. *)
Theorem SearchForDefinition_later_declaration_shadows
    (prefix : string) (stack_ : ScopeContext.t) (scope earlier later : nat)
    (first_vname second_vname : VName) :
  ScopeContext.no_null_scope stack_ ->
  earlier < later ->
  ScopeContext.at_location stack_ (mkLocation scope earlier) = Some first_vname ->
  ScopeContext.at_location stack_ (mkLocation scope later) = Some second_vname ->
  StartsWith (signature first_vname) prefix = true ->
  StartsWith (signature second_vname) prefix = true ->
  exists l,
    ScopeContext.SearchForDefinition prefix stack_ = Returns (Some l, stack_) /\
    l <> mkLocation scope earlier /\
    ((forall l' vname', ScopeContext.at_location stack_ l' = Some vname' ->
                        ScopeContext.searched_before l' (mkLocation scope later) ->
                        StartsWith (signature vname') prefix = false) ->
     l = mkLocation scope later).
Proof.
  intros Hlive Hlt H1 H2 Hm1 Hm2.
  destruct (SearchForDefinition_first_match prefix stack_ Hlive) as (result & Hrun & Hfirst).
  destruct result as [l |]; simpl in Hfirst.
  - exists l. destruct Hfirst as ((v & Hv & Hm) & Hbefore).
    split; [exact Hrun |]. split.
    + intros ->.
      assert (StartsWith (signature second_vname) prefix = false) as Hno.
      { apply (Hbefore _ _ H2). right. simpl. split; [reflexivity | exact Hlt]. }
      congruence.
    + intros Hnone.
      destruct (searched_before_trichotomy l (mkLocation scope later))
        as [Heq | [Hb | Hb]]; [exact Heq | |].
      * rewrite (Hnone _ _ Hv Hb) in Hm. discriminate.
      * rewrite (Hbefore _ _ H2 Hb) in Hm2. discriminate.
  - rewrite (Hfirst _ _ H1) in Hm1. discriminate.
Qed.

Lemma SearchForDefinition_later_declaration_shadows_witness :
  exists l,
    ScopeContext.SearchForDefinition (CreateVariableSignature "x") Examples.scopes_in_foo
      = Returns (Some l, Examples.scopes_in_foo) /\
    l <> mkLocation 1 1 /\
    ((forall l' vname', ScopeContext.at_location Examples.scopes_in_foo l' = Some vname' ->
                        ScopeContext.searched_before l' (mkLocation 1 2) ->
                        StartsWith (signature vname') (CreateVariableSignature "x") = false) ->
     l = mkLocation 1 2).
Proof.
  apply (SearchForDefinition_later_declaration_shadows
           (CreateVariableSignature "x") Examples.scopes_in_foo 1 1 2
           (Examples.vname_of "x#variable#foo#module#top.sv")
           (Examples.vname_of "x#variable#foo#module#top.sv")).
  - unfold ScopeContext.no_null_scope, Examples.scopes_in_foo.
    repeat constructor; discriminate.
  - lia.
  - reflexivity.
  - reflexivity.
  - reflexivity.
  - reflexivity.
Defined.

(** The lookup right after two declarations of the same name were appended
    to the top scope, whatever was declared between them. *)

Lemma SearchForDefinition_after_two_declarations
    (prefix : string) (below : ScopeContext.t) (vnames between : Scope)
    (first_vname second_vname : VName) :
  ScopeContext.no_null_scope below ->
  StartsWith (signature second_vname) prefix = true ->
  ScopeContext.SearchForDefinition prefix
    (below ++ [Some ((vnames ++ first_vname :: between) ++ [second_vname])])
  = Returns (Some (mkLocation (length below) (length (vnames ++ first_vname :: between))),
             below ++ [Some ((vnames ++ first_vname :: between) ++ [second_vname])]).
Proof.
  intros Hlive Hmatch. rewrite SearchForDefinition_search_order.
  - rewrite search_order_push_back, Hmatch. reflexivity.
  - apply Forall_app. split; [exact Hlive |]. repeat constructor. discriminate.
Qed.

(** ** C9 *)

(** C9: [SearchForDefinition] only reads: whenever it returns, the stack of
    scopes, every scope on it and the order of the VNames in every scope are
    as they were before the call. *)
Theorem SearchForDefinition_leaves_scopes_unchanged
    (prefix : string) (stack_ : ScopeContext.t)
    (result : pointer Location) (stack_after : ScopeContext.t) :
  ScopeContext.SearchForDefinition prefix stack_ = Returns (result, stack_after) ->
  stack_after = stack_.
Proof. apply read_only_SearchForDefinition. Qed.

Lemma SearchForDefinition_leaves_scopes_unchanged_witness :
  Examples.scopes_in_foo = Examples.scopes_in_foo.
Proof.
  apply (SearchForDefinition_leaves_scopes_unchanged
           "x#variable" Examples.scopes_in_foo (Some (mkLocation 1 2))
           Examples.scopes_in_foo).
  reflexivity.
Defined.

(** ** Steps of a method *)

Lemma bind_Returns {S A B : Type} (m : Method S A) (k : A -> Method S B)
    (s : S) (r : B * S) :
  bind m k s = Returns r ->
  exists a s1, m s = Returns (a, s1) /\ k a s1 = Returns r.
Proof.
  unfold bind. destruct (m s) as [[a s1] | |]; try discriminate.
  intros H. exists a, s1. split; [reflexivity | exact H].
Qed.

Ltac step_in H :=
  let a := fresh "a" in
  let e := fresh "e" in
  let H1 := fresh H in
  apply bind_Returns in H; destruct H as (a & e & H1 & H).

(** ** The top of a stack *)

Lemma stack_cases {T : Type} (stack_ : list T) :
  stack_ = [] \/ exists below value, stack_ = below ++ [value].
Proof.
  destruct stack_ as [| x l] using rev_ind; [left; reflexivity | right; eauto].
Qed.

Lemma extend_top_snoc (below : ScopeContext.t) (vnames added : list VName) :
  ScopeContext.extend_top (below ++ [Some vnames]) added
  = below ++ [Some (vnames ++ added)].
Proof.
  unfold ScopeContext.extend_top. rewrite rev_unit, rev_involutive. reflexivity.
Qed.

Lemma extend_top_null (below : ScopeContext.t) (added : list VName) :
  ScopeContext.extend_top (below ++ [None]) added = below ++ [None].
Proof. unfold ScopeContext.extend_top. rewrite rev_unit. reflexivity. Qed.

Lemma extend_top_nothing (stack_ : ScopeContext.t) :
  ScopeContext.extend_top stack_ [] = stack_.
Proof.
  destruct (stack_cases stack_) as [-> | (below & [vnames |] & ->)].
  - reflexivity.
  - rewrite extend_top_snoc, app_nil_r. reflexivity.
  - apply extend_top_null.
Qed.

Lemma extend_top_twice (stack_ : ScopeContext.t) (added1 added2 : list VName) :
  ScopeContext.extend_top (ScopeContext.extend_top stack_ added1) added2
  = ScopeContext.extend_top stack_ (added1 ++ added2).
Proof.
  destruct (stack_cases stack_) as [-> | (below & [vnames |] & ->)].
  - reflexivity.
  - rewrite !extend_top_snoc, app_assoc. reflexivity.
  - rewrite !extend_top_null. reflexivity.
Qed.

Lemma advance_nothing (e : KytheFactsExtractor) : advance e [] [] 0 = e.
Proof.
  destruct e as [file_path vnames scopes stream [a b c d]]. unfold advance. simpl.
  rewrite extend_top_nothing, app_nil_r, !Nat.add_0_r. reflexivity.
Qed.

Lemma advance_twice (e : KytheFactsExtractor) (added1 added2 : list VName)
    (emitted1 emitted2 : list Entry) (k1 k2 : nat) :
  advance (advance e added1 emitted1 k1) added2 emitted2 k2
  = advance e (added1 ++ added2) (emitted1 ++ emitted2) (k1 + k2).
Proof.
  unfold advance. simpl.
  rewrite extend_top_twice, <- app_assoc, <- !Nat.add_assoc. reflexivity.
Qed.

(** ** Reads of the extractor *)

Lemma read_only_die {S A : Type} : read_only (@die S A).
Proof. intros s a s' H. discriminate. Qed.

Lemma read_only_undefined_behaviour {S A : Type} : read_only (@undefined_behaviour S A).
Proof. intros s a s' H. discriminate. Qed.

Lemma read_only_base_top {T : Type} : read_only (@AutoPopStackBase.top T).
Proof.
  unfold AutoPopStackBase.top. apply read_only_bind; [apply read_only_get |].
  intros stack_. destruct (rev stack_); [apply read_only_die | apply read_only_ret].
Qed.

Lemma read_only_ABSL_DIE_IF_NULL {S A : Type} (p : pointer A) :
  read_only (@ABSL_DIE_IF_NULL S A p).
Proof. destruct p; [apply read_only_ret | apply read_only_die]. Qed.

Lemma read_only_VNameContext_top : read_only VNameContext.top.
Proof.
  unfold VNameContext.top. apply read_only_bind; [apply read_only_base_top |].
  intros p. apply read_only_ABSL_DIE_IF_NULL.
Qed.

Lemma read_only_ScopeContext_top : read_only ScopeContext.top.
Proof.
  unfold ScopeContext.top. apply read_only_bind; [apply read_only_base_top |].
  intros p. apply read_only_ABSL_DIE_IF_NULL.
Qed.

Lemma read_only_on_vnames_context {A : Type} (m : Method VNameContext.t A) :
  read_only m -> read_only (on_vnames_context m).
Proof.
  intros Hm e a e' H. unfold on_vnames_context in H.
  destruct (m (vnames_context_ e)) as [[a0 stack'] | |] eqn:E; try discriminate.
  apply Hm in E. subst stack'. inversion H. destruct e. reflexivity.
Qed.

Lemma read_only_on_scope_context {A : Type} (m : Method ScopeContext.t A) :
  read_only m -> read_only (on_scope_context m).
Proof.
  intros Hm e a e' H. unfold on_scope_context in H.
  destruct (m (scope_context_ e)) as [[a0 stack'] | |] eqn:E; try discriminate.
  apply Hm in E. subst stack'. inversion H. destruct e. reflexivity.
Qed.

Create HintDb reads discriminated.

#[local] Hint Resolve read_only_ret read_only_get read_only_die
  read_only_undefined_behaviour read_only_VNameContext_top
  read_only_ScopeContext_top read_only_SearchForDefinition
  read_only_on_vnames_context read_only_on_scope_context : reads.

Section ExtractorProperties.

Variable conf : Configuration.

Lemma read_only_read_file_path : read_only read_file_path.
Proof. intros e a e' H. inversion H. reflexivity. Qed.

Lemma read_only_expected_anchor (node : IndexingFactNode) (i : nat) :
  read_only (expected_anchor node i).
Proof.
  unfold expected_anchor. destruct (nth_error _ i); auto with reads.
Qed.

Lemma read_only_found_vname (found : Location) : read_only (found_vname found).
Proof.
  unfold found_vname. apply read_only_bind; [auto with reads |].
  intros stack_. destruct (ScopeContext.at_location stack_ found); auto with reads.
Qed.

Lemma read_only_CreateScopeRelativeSignature (local_signature : string) :
  read_only (CreateScopeRelativeSignature local_signature).
Proof.
  unfold CreateScopeRelativeSignature.
  apply read_only_bind; [auto with reads |]. intros v. auto with reads.
Qed.

(** *** Methods that only write *)

Lemma writes_only_read {A : Type} (m : Method KytheFactsExtractor A) :
  read_only m -> writes_only m.
Proof.
  intros Hm e a e' H. apply Hm in H. subst e'. exists [].
  symmetry. apply advance_nothing.
Qed.

Lemma writes_only_bind {A B : Type} (m : Method KytheFactsExtractor A)
    (k : A -> Method KytheFactsExtractor B) :
  writes_only m -> (forall a, writes_only (k a)) -> writes_only (bind m k).
Proof.
  intros Hm Hk e b e' H. step_in H.
  apply Hm in H0. destruct H0 as (emitted1 & ->).
  apply Hk in H. destruct H as (emitted2 & ->).
  exists (emitted1 ++ emitted2). apply advance_twice.
Qed.

Lemma write_advances (entry : Entry) (e : KytheFactsExtractor) :
  write entry e = Returns (tt, advance e [] [entry] 0).
Proof.
  destruct e as [file_path vnames scopes stream [a b c d]].
  unfold write, advance. simpl.
  rewrite extend_top_nothing, !Nat.add_0_r. reflexivity.
Qed.

Lemma writes_only_write (entry : Entry) : writes_only (write entry).
Proof.
  intros e a e' H. rewrite write_advances in H. inversion H. eauto.
Qed.

Lemma writes_only_PrintAnchorVName (anchor : Anchor) (label : string) :
  writes_only (PrintAnchorVName conf anchor label).
Proof.
  unfold PrintAnchorVName, GenerateFactString.
  apply writes_only_bind; [apply writes_only_read, read_only_read_file_path |].
  intros file_path. apply writes_only_bind; [apply writes_only_write |].
  intros _. apply writes_only_read, read_only_ret.
Qed.

Ltac writes :=
  repeat first
    [ apply writes_only_write
    | apply writes_only_PrintAnchorVName
    | apply writes_only_read;
      solve [ auto with reads
            | apply read_only_read_file_path
            | apply read_only_expected_anchor
            | apply read_only_found_vname
            | apply read_only_CreateScopeRelativeSignature ]
    | apply writes_only_bind; [| intros ?]
    | match goal with
      | |- writes_only (match ?x with _ => _ end) => destruct x
      end ].

Lemma writes_only_ExtractFileFact (node : IndexingFactNode) :
  writes_only (ExtractFileFact conf node).
Proof. unfold ExtractFileFact, GenerateFactString. writes. Qed.

Lemma writes_only_ExtractModuleFact (node : IndexingFactNode) :
  writes_only (ExtractModuleFact conf node).
Proof. unfold ExtractModuleFact, GenerateFactString, GenerateEdgeString. writes. Qed.

Lemma writes_only_ExtractClassFact (node : IndexingFactNode) :
  writes_only (ExtractClassFact conf node).
Proof. unfold ExtractClassFact, GenerateFactString, GenerateEdgeString. writes. Qed.

Lemma writes_only_extract_instance (type_signature : string -> string)
    (node : IndexingFactNode) :
  writes_only (extract_instance conf type_signature node).
Proof. unfold extract_instance, GenerateFactString, GenerateEdgeString. writes. Qed.

Lemma writes_only_ExtractVariableReferenceFact (node : IndexingFactNode) :
  writes_only (ExtractVariableReferenceFact conf node).
Proof.
  unfold ExtractVariableReferenceFact, GenerateFactString, GenerateEdgeString. writes.
Qed.

(** *** Orderly methods *)

Lemma orderly_writes {A : Type} (m : Method KytheFactsExtractor A) :
  writes_only m -> orderly m.
Proof. intros Hm e a e' H. apply Hm in H. destruct H as (emitted & ->). eauto. Qed.

Lemma orderly_bind {A B : Type} (m : Method KytheFactsExtractor A)
    (k : A -> Method KytheFactsExtractor B) :
  orderly m -> (forall a, orderly (k a)) -> orderly (bind m k).
Proof.
  intros Hm Hk e b e' H. step_in H.
  apply Hm in H0. destruct H0 as (added1 & emitted1 & k1 & ->).
  apply Hk in H. destruct H as (added2 & emitted2 & k2 & ->).
  rewrite advance_twice. eauto.
Qed.

Lemma push_back_top_advances (vname : VName) (u : unit) (e e' : KytheFactsExtractor) :
  on_scope_context (ScopeContext.push_back_top vname) e = Returns (u, e') ->
  e' = advance e [vname] [] 0.
Proof.
  destruct e as [file_path vnames scopes stream [a b c d]].
  unfold on_scope_context, ScopeContext.push_back_top, ScopeContext.top,
    AutoPopStackBase.top, advance. simpl.
  destruct (stack_cases scopes) as [-> | (below & [top |] & ->)].
  - discriminate.
  - unfold bind, get. simpl. rewrite rev_unit. simpl.
    rewrite removelast_last, extend_top_snoc, app_nil_r, !Nat.add_0_r.
    intros H. inversion H. reflexivity.
  - unfold bind, get. simpl. rewrite rev_unit. simpl. discriminate.
Qed.

Lemma orderly_push_back_top (vname : VName) :
  orderly (on_scope_context (ScopeContext.push_back_top vname)).
Proof.
  intros e [] e' H. apply push_back_top_advances in H. eauto.
Qed.

(** *** Entering and leaving a scope *)

Lemma in_new_scope_equation (vname : VName)
    (visit_children : Method KytheFactsExtractor unit) (e : KytheFactsExtractor) :
  in_new_scope vname visit_children e
  = match visit_children (entered e vname) with
    | Returns (_, e2) =>
        (current_scope <- on_scope_context ScopeContext.top ;;
         scope_auto_pop_leave ;;;
         vnames_auto_pop_leave ;;;
         add_to_containing_scope current_scope) e2
    | Fatal => Fatal
    | Undefined => Undefined
    end.
Proof. destruct e as [file_path vnames scopes stream [a b c d]]. reflexivity. Qed.

Lemma stack_with_top_is_not_empty {A B : Type} (below : list A) (top : A) (empty other : B) :
  match below ++ [top] with
  | [] => empty
  | _ :: _ => other
  end = other.
Proof. destruct below; reflexivity. Qed.

(** Adding a resolved scope to the containing scope: the scope on top of
    the stack is extended; a null pointer there is fatal, an empty stack
    is left alone. *)

Lemma add_to_containing_scope_runs (resolved : Scope) (file_path : string)
    (vnames : VNameContext.t) (scopes : ScopeContext.t) (stream : list Entry)
    (operations : StackOperations) :
  add_to_containing_scope resolved
    (mkKytheFactsExtractor file_path vnames scopes stream operations)
  = match rev scopes with
    | None :: _ => Fatal
    | _ =>
        Returns (tt, mkKytheFactsExtractor file_path vnames
                       (ScopeContext.extend_top scopes resolved) stream operations)
    end.
Proof.
  destruct (stack_cases scopes) as [-> | (below & top & ->)].
  - reflexivity.
  - rewrite rev_unit.
    unfold add_to_containing_scope, on_scope_context, bind, get.
    cbn [scope_context_]. cbv beta iota.
    rewrite stack_with_top_is_not_empty.
    unfold ScopeContext.top, AutoPopStackBase.top, bind, get, put.
    cbn [scope_context_ file_path_ vnames_context_ stream_ stack_operations_].
    rewrite rev_unit, removelast_last.
    destruct top as [top |]; [rewrite extend_top_snoc |]; reflexivity.
Qed.

(** Leaving the scope of a node: both stacks lose their top, and what the
    scope held is added to the scope below it, which must not be a null
    pointer. *)

Lemma leave_new_scope (file_path : string) (vnames : VNameContext.t) (vname : VName)
    (scopes : ScopeContext.t) (resolved : Scope) (stream : list Entry)
    (operations : StackOperations) :
  (current_scope <- on_scope_context ScopeContext.top ;;
   scope_auto_pop_leave ;;;
   vnames_auto_pop_leave ;;;
   add_to_containing_scope current_scope)
    (mkKytheFactsExtractor file_path (vnames ++ [Some vname])
       (scopes ++ [Some resolved]) stream operations)
  = match rev scopes with
    | None :: _ => Fatal
    | _ =>
        Returns (tt, mkKytheFactsExtractor file_path vnames
                       (ScopeContext.extend_top scopes resolved) stream
                       (count_vname_pop (count_scope_pop operations)))
    end.
Proof.
  rewrite <- add_to_containing_scope_runs.
  unfold scope_auto_pop_leave, vnames_auto_pop_leave,
    on_scope_context, on_vnames_context, ScopeContext.top, AutoPopStackBase.top,
    AutoPopStackBase.Pop, bind, get, put, count.
  cbn -[add_to_containing_scope rev].
  repeat (rewrite rev_unit; cbn -[add_to_containing_scope rev]).
  rewrite !rev_involutive. reflexivity.
Qed.

(** A scope-introducing node that returns: its children were visited on
    the stacks with the node's VName and an empty scope on top, and what
    they declared is added to the scope below. *)

Lemma in_new_scope_inversion (vname : VName) (visit_children : Method KytheFactsExtractor unit)
    (u : unit) (e e' : KytheFactsExtractor) :
  orderly visit_children ->
  in_new_scope vname visit_children e = Returns (u, e') ->
  exists added emitted k,
    visit_children (entered e vname)
      = Returns (tt, advance (entered e vname) added emitted k) /\
    e' = advance e added emitted (S k).
Proof.
  intros Hbody H. rewrite in_new_scope_equation in H.
  destruct (visit_children (entered e vname)) as [[[] e2] | |] eqn:Hchildren;
    try discriminate.
  destruct (Hbody _ _ _ Hchildren) as (added & emitted & k & ->).
  exists added, emitted, k. split; [reflexivity |].
  destruct e as [file_path vnames scopes stream [a b c d]].
  unfold entered, advance in H. simpl in H.
  rewrite extend_top_snoc, leave_new_scope in H. simpl in H.
  unfold advance. simpl.
  destruct (rev scopes) as [| [top |] below]; try discriminate;
    inversion H; unfold count_vname_pop, count_scope_pop; simpl;
    do 2 f_equal; lia.
Qed.

Lemma in_new_scope_advances (vname : VName) (visit_children : Method KytheFactsExtractor unit)
    (u : unit) (e e' : KytheFactsExtractor) :
  orderly visit_children ->
  in_new_scope vname visit_children e = Returns (u, e') ->
  exists added emitted k, e' = advance e added emitted (S k).
Proof.
  intros Hbody H.
  destruct (in_new_scope_inversion _ _ _ _ _ Hbody H) as (added & emitted & k & _ & ->).
  eauto.
Qed.

Lemma orderly_in_new_scope (vname : VName) (visit_children : Method KytheFactsExtractor unit) :
  orderly visit_children -> orderly (in_new_scope vname visit_children).
Proof.
  intros Hbody e u e' H.
  destruct (in_new_scope_advances _ _ _ _ _ Hbody H) as (added & emitted & k & ->). eauto.
Qed.

(** *** The visit *)

Lemma Visit_equation (kind : IndexingFactType) (anchors : list Anchor)
    (children : list IndexingFactNode) :
  Visit conf (Node kind anchors children)
  = match kind with
    | kFile =>
        vname <- ExtractFileFact conf (Node kind anchors children) ;;
        in_new_scope vname (VisitAll conf children)
    | kModule =>
        vname <- ExtractModuleFact conf (Node kind anchors children) ;;
        on_scope_context (ScopeContext.push_back_top vname) ;;;
        in_new_scope vname (VisitAll conf children)
    | kClass =>
        vname <- ExtractClassFact conf (Node kind anchors children) ;;
        on_scope_context (ScopeContext.push_back_top vname) ;;;
        in_new_scope vname (VisitAll conf children)
    | kModuleInstance =>
        ExtractModuleInstanceFact conf (Node kind anchors children) ;;;
        VisitAll conf children
    | kClassInstance =>
        ExtractClassInstances conf (Node kind anchors children) ;;;
        VisitAll conf children
    | kVariableDefinition =>
        ExtractVariableDefinitionFact conf (Node kind anchors children) ;;;
        VisitAll conf children
    | kVariableReference =>
        ExtractVariableReferenceFact conf (Node kind anchors children) ;;;
        VisitAll conf children
    | kUnrecognized =>
        VisitAll conf children
    end.
Proof. destruct kind; reflexivity. Qed.

Lemma orderly_VisitAll (children : list IndexingFactNode) :
  Forall (fun child => orderly (Visit conf child)) children ->
  orderly (VisitAll conf children).
Proof.
  induction 1 as [| child rest Hchild _ IH]; simpl.
  - apply orderly_writes, writes_only_read, read_only_ret.
  - apply orderly_bind; [exact Hchild | intros _; exact IH].
Qed.

Lemma orderly_ExtractVariableDefinitionFact (node : IndexingFactNode) :
  orderly (ExtractVariableDefinitionFact conf node).
Proof.
  unfold ExtractVariableDefinitionFact, GenerateFactString, GenerateEdgeString.
  repeat first
    [ apply orderly_push_back_top
    | apply orderly_writes; solve [ writes ]
    | apply orderly_bind; [| intros ?] ].
Qed.

Lemma orderly_Visit (node : IndexingFactNode) : orderly (Visit conf node).
Proof.
  induction node as [kind anchors children IH] using IndexingFactNode_ind.
  apply orderly_VisitAll in IH. rewrite Visit_equation.
  destruct kind;
    repeat first
      [ exact IH
      | apply orderly_in_new_scope; exact IH
      | apply orderly_push_back_top
      | apply orderly_ExtractVariableDefinitionFact
      | apply orderly_writes;
        first [ apply writes_only_ExtractFileFact
              | apply writes_only_ExtractModuleFact
              | apply writes_only_ExtractClassFact
              | apply writes_only_extract_instance
              | apply writes_only_ExtractVariableReferenceFact ]
      | apply orderly_bind; [| intros ?] ].
Qed.

(** *** Returning inside a scope *)

Lemma no_null_extend_top (stack_ : ScopeContext.t) (added : list VName) :
  ScopeContext.no_null_scope stack_ ->
  ScopeContext.no_null_scope (ScopeContext.extend_top stack_ added).
Proof.
  unfold ScopeContext.no_null_scope.
  destruct (stack_cases stack_) as [-> | (below & [vnames |] & ->)].
  - trivial.
  - rewrite extend_top_snoc, !Forall_app. intros [H _]. split; [exact H |].
    repeat constructor. discriminate.
  - rewrite extend_top_null. trivial.
Qed.

Lemma inside_scope_advance (e : KytheFactsExtractor) (added : list VName)
    (emitted : list Entry) (k : nat) :
  inside_scope e -> inside_scope (advance e added emitted k).
Proof.
  intros (Hvnames & (below & vnames & Hscopes) & Hlive). unfold inside_scope, advance.
  simpl. split; [exact Hvnames |]. split.
  - rewrite Hscopes, extend_top_snoc. eauto.
  - apply no_null_extend_top. exact Hlive.
Qed.

Lemma inside_scope_entered (e : KytheFactsExtractor) (vname : VName) :
  ScopeContext.no_null_scope (scope_context_ e) -> inside_scope (entered e vname).
Proof.
  intros Hlive. unfold inside_scope, entered. simpl. split; [eauto |]. split; [eauto |].
  apply Forall_app. split; [exact Hlive |]. repeat constructor. discriminate.
Qed.

Lemma sound_bind {A B : Type} (m : Method KytheFactsExtractor A)
    (k : A -> Method KytheFactsExtractor B) :
  sound m -> (forall a, sound (k a)) -> sound (bind m k).
Proof.
  intros Hm Hk e He.
  destruct (Hm e He) as (a & added1 & emitted1 & k1 & Hrun1).
  destruct (Hk a _ (inside_scope_advance e added1 emitted1 k1 He))
    as (b & added2 & emitted2 & k2 & Hrun2).
  exists b, (added1 ++ added2), (emitted1 ++ emitted2), (k1 + k2).
  unfold bind. rewrite Hrun1, Hrun2, advance_twice. reflexivity.
Qed.

Lemma sound_reads {A : Type} (m : Method KytheFactsExtractor A) :
  (forall e, inside_scope e -> exists a, m e = Returns (a, e)) -> sound m.
Proof.
  intros Hm e He. destruct (Hm e He) as (a & Hrun).
  exists a, [], [], 0. rewrite advance_nothing. exact Hrun.
Qed.

Lemma sound_ret {A : Type} (a : A) : sound (ret a).
Proof. apply sound_reads. intros e _. exists a. reflexivity. Qed.

Lemma sound_write (entry : Entry) : sound (write entry).
Proof. intros e _. exists tt, [], [entry], 0. apply write_advances. Qed.

Lemma sound_read_file_path : sound read_file_path.
Proof. apply sound_reads. intros e _. eexists. reflexivity. Qed.

Lemma sound_VNameContext_top : sound (on_vnames_context VNameContext.top).
Proof.
  apply sound_reads. intros e ((below & vname & Hvnames) & _). exists vname.
  destruct e as [file_path vnames scopes stream ops]. simpl in Hvnames. subst vnames.
  unfold on_vnames_context, VNameContext.top, AutoPopStackBase.top, bind, get. simpl.
  rewrite rev_unit. reflexivity.
Qed.

Lemma sound_CreateScopeRelativeSignature (local_signature : string) :
  sound (CreateScopeRelativeSignature local_signature).
Proof.
  unfold CreateScopeRelativeSignature.
  apply sound_bind; [apply sound_VNameContext_top | intros v; apply sound_ret].
Qed.

Lemma sound_push_back_top (vname : VName) :
  sound (on_scope_context (ScopeContext.push_back_top vname)).
Proof.
  intros e (_ & (below & vnames & Hscopes) & _). exists tt, [vname], [], 0.
  destruct e as [file_path vnames_stack scopes stream [a b c d]].
  simpl in Hscopes. subst scopes.
  unfold on_scope_context, ScopeContext.push_back_top, ScopeContext.top,
    AutoPopStackBase.top, advance, bind, get. simpl.
  rewrite rev_unit. simpl.
  rewrite removelast_last, extend_top_snoc, app_nil_r, !Nat.add_0_r. reflexivity.
Qed.

Lemma sound_PrintAnchorVName (anchor : Anchor) (label : string) :
  sound (PrintAnchorVName conf anchor label).
Proof.
  unfold PrintAnchorVName, GenerateFactString.
  apply sound_bind; [apply sound_read_file_path | intros file_path].
  apply sound_bind; [apply sound_write | intros _; apply sound_ret].
Qed.

(** *** What a reference and an instance write *)

Lemma ExtractVariableReferenceFact_runs (node : IndexingFactNode) (name : Anchor)
    (definition : pointer Location) (e : KytheFactsExtractor) :
  nth_error (node_anchors node) 0 = Some name ->
  ScopeContext.SearchForDefinition (CreateVariableSignature (value name)) (scope_context_ e)
    = Returns (definition, scope_context_ e) ->
  (forall found, definition = Some found ->
     exists vname, ScopeContext.at_location (scope_context_ e) found = Some vname) ->
  ExtractVariableReferenceFact conf node e
  = Returns (anchor_vname_of conf e name,
             advance e []
               (FactEntry (anchor_vname_of conf e name) "node/kind" "anchor"
                  :: link_to_definition (scope_context_ e) (anchor_vname_of conf e name)
                       "ref" definition) 0).
Proof.
  intros Hname Hsearch Hvalid.
  destruct e as [file_path vnames scopes stream [a b c d]].
  simpl in Hsearch, Hvalid |- *.
  unfold ExtractVariableReferenceFact, expected_anchor. rewrite Hname.
  unfold bind at 1. unfold ret at 1. cbv beta iota.
  unfold bind at 1. unfold on_scope_context at 1. simpl. rewrite Hsearch.
  unfold PrintAnchorVName, GenerateFactString, GenerateEdgeString, read_file_path,
    write, bind, ret, anchor_vname_of, advance, link_to_definition. simpl.
  rewrite extend_top_nothing, !Nat.add_0_r.
  destruct definition as [found |]; [| reflexivity].
  destruct (Hvalid found eq_refl) as (vname & Hfound).
  unfold found_vname, on_scope_context, bind, get. simpl. rewrite Hfound. simpl.
  rewrite <- app_assoc. reflexivity.
Qed.

Lemma extract_instance_runs (type_signature : string -> string) (node : IndexingFactNode)
    (type_name instance_name : Anchor) (definition : pointer Location)
    (below : VNameContext.t) (enclosing : VName) (e : KytheFactsExtractor) :
  nth_error (node_anchors node) 0 = Some type_name ->
  nth_error (node_anchors node) 1 = Some instance_name ->
  vnames_context_ e = below ++ [Some enclosing] ->
  ScopeContext.SearchForDefinition (type_signature (value type_name)) (scope_context_ e)
    = Returns (definition, scope_context_ e) ->
  (forall found, definition = Some found ->
     exists vname, ScopeContext.at_location (scope_context_ e) found = Some vname) ->
  let instance_vname :=
    vname_inside conf e enclosing (CreateVariableSignature (value instance_name)) in
  extract_instance conf type_signature node e
  = Returns (instance_vname,
             advance e []
               (FactEntry instance_vname "node/kind" "variable"
                  :: link_to_definition (scope_context_ e) instance_vname
                       "instantiates" definition) 0).
Proof.
  intros Htype Hname Hvnames Hsearch Hvalid.
  destruct e as [file_path vnames scopes stream [a b c d]].
  simpl in Hvnames, Hsearch, Hvalid |- *. subst vnames.
  unfold extract_instance, expected_anchor. rewrite Htype, Hname.
  unfold CreateScopeRelativeSignature, on_vnames_context, VNameContext.top,
    AutoPopStackBase.top, read_file_path, GenerateFactString, GenerateEdgeString,
    write, vname_inside, advance, link_to_definition.
  unfold bind at 1. unfold ret at 1. cbv beta iota.
  unfold bind at 1. unfold ret at 1. cbv beta iota.
  unfold bind, get, ret. simpl. rewrite rev_unit. simpl.
  unfold on_scope_context. simpl. rewrite Hsearch.
  rewrite extend_top_nothing, !Nat.add_0_r.
  destruct definition as [found |]; [| reflexivity].
  destruct (Hvalid found eq_refl) as (vname & Hfound).
  unfold found_vname, on_scope_context, bind, get. simpl. rewrite Hfound. simpl.
  rewrite <- app_assoc. reflexivity.
Qed.

Lemma first_match_points_at_a_vname (stack_ : ScopeContext.t) (prefix : string)
    (definition : pointer Location) :
  ScopeContext.is_first_match stack_ prefix definition ->
  forall found, definition = Some found ->
    exists vname, ScopeContext.at_location stack_ found = Some vname.
Proof.
  intros H found ->. destruct H as ((vname & Hat & _) & _). eauto.
Qed.

Lemma search_inside_scope (prefix : string) (e : KytheFactsExtractor) :
  inside_scope e ->
  exists definition,
    ScopeContext.SearchForDefinition prefix (scope_context_ e)
      = Returns (definition, scope_context_ e) /\
    forall found, definition = Some found ->
      exists vname, ScopeContext.at_location (scope_context_ e) found = Some vname.
Proof.
  intros (_ & _ & Hlive).
  destruct (SearchForDefinition_first_match prefix _ Hlive) as (definition & Hrun & Hfirst).
  exists definition. split; [exact Hrun |].
  exact (first_match_points_at_a_vname _ _ _ Hfirst).
Qed.

Lemma sound_ExtractVariableReferenceFact (node : IndexingFactNode) :
  1 <= length (node_anchors node) ->
  sound (ExtractVariableReferenceFact conf node).
Proof.
  intros Hanchors e He.
  destruct (nth_error (node_anchors node) 0) as [name |] eqn:Hname;
    [| apply nth_error_None in Hname; lia].
  destruct (search_inside_scope (CreateVariableSignature (value name)) e He)
    as (definition & Hsearch & Hvalid).
  rewrite (ExtractVariableReferenceFact_runs node name definition e Hname Hsearch Hvalid).
  eauto.
Qed.

Lemma sound_extract_instance (type_signature : string -> string) (node : IndexingFactNode) :
  2 <= length (node_anchors node) ->
  sound (extract_instance conf type_signature node).
Proof.
  intros Hanchors e He.
  destruct (nth_error (node_anchors node) 0) as [type_name |] eqn:Htype;
    [| apply nth_error_None in Htype; lia].
  destruct (nth_error (node_anchors node) 1) as [instance_name |] eqn:Hname;
    [| apply nth_error_None in Hname; lia].
  destruct (search_inside_scope (type_signature (value type_name)) e He)
    as (definition & Hsearch & Hvalid).
  pose proof He as ((below & enclosing & Hvnames) & _).
  rewrite (extract_instance_runs type_signature node type_name instance_name definition
             below enclosing e Htype Hname Hvnames Hsearch Hvalid).
  eauto.
Qed.

Lemma sound_expected_anchor (node : IndexingFactNode) (i : nat) :
  i < length (node_anchors node) -> sound (expected_anchor node i).
Proof.
  intros Hi. apply sound_reads. intros e _. unfold expected_anchor.
  destruct (nth_error (node_anchors node) i) as [anchor |] eqn:Hanchor;
    [| apply nth_error_None in Hanchor; lia].
  exists anchor. reflexivity.
Qed.

Ltac sounds :=
  repeat first
    [ apply sound_ret
    | apply sound_write
    | apply sound_read_file_path
    | apply sound_VNameContext_top
    | apply sound_CreateScopeRelativeSignature
    | apply sound_push_back_top
    | apply sound_PrintAnchorVName
    | apply sound_expected_anchor; lia
    | apply sound_bind; [| intros ?] ].

Lemma sound_ExtractFileFact (node : IndexingFactNode) :
  sound (ExtractFileFact conf node).
Proof. unfold ExtractFileFact, GenerateFactString. sounds. Qed.

Lemma sound_ExtractModuleFact (node : IndexingFactNode) :
  1 <= length (node_anchors node) -> sound (ExtractModuleFact conf node).
Proof.
  intros Hanchors. unfold ExtractModuleFact, GenerateFactString, GenerateEdgeString.
  sounds.
Qed.

Lemma sound_ExtractClassFact (node : IndexingFactNode) :
  1 <= length (node_anchors node) -> sound (ExtractClassFact conf node).
Proof.
  intros Hanchors. unfold ExtractClassFact, GenerateFactString, GenerateEdgeString.
  sounds.
Qed.

Lemma sound_ExtractVariableDefinitionFact (node : IndexingFactNode) :
  1 <= length (node_anchors node) -> sound (ExtractVariableDefinitionFact conf node).
Proof.
  intros Hanchors.
  unfold ExtractVariableDefinitionFact, GenerateFactString, GenerateEdgeString. sounds.
Qed.

Lemma in_new_scope_returns (vname : VName) (visit_children : Method KytheFactsExtractor unit)
    (e : KytheFactsExtractor) :
  ScopeContext.no_null_scope (scope_context_ e) ->
  sound visit_children ->
  exists added emitted k, in_new_scope vname visit_children e
                          = Returns (tt, advance e added emitted (S k)).
Proof.
  intros Hlive Hbody.
  destruct (Hbody _ (inside_scope_entered e vname Hlive))
    as ([] & added & emitted & k & Hrun).
  exists added, emitted, k.
  rewrite in_new_scope_equation, Hrun.
  destruct e as [file_path vnames scopes stream [a b c d]].
  unfold entered, advance. cbn [file_path_ vnames_context_ scope_context_ stream_
    stack_operations_].
  rewrite extend_top_snoc, leave_new_scope. simpl in Hlive.
  destruct (stack_cases scopes) as [-> | (below & [top |] & ->)].
  - simpl. unfold count_vname_pop, count_scope_pop. simpl. do 4 f_equal; lia.
  - rewrite rev_unit. unfold count_vname_pop, count_scope_pop. simpl.
    do 4 f_equal; lia.
  - unfold ScopeContext.no_null_scope in Hlive. apply Forall_app in Hlive.
    destruct Hlive as [_ Hlive]. inversion Hlive as [| ? ? Hnull _]. now elim Hnull.
Qed.

Lemma sound_in_new_scope (vname : VName) (visit_children : Method KytheFactsExtractor unit) :
  sound visit_children -> sound (in_new_scope vname visit_children).
Proof.
  intros Hbody e (_ & _ & Hlive).
  destruct (in_new_scope_returns vname visit_children e Hlive Hbody)
    as (added & emitted & k & Hrun).
  exists tt, added, emitted, (S k). exact Hrun.
Qed.

Lemma sound_VisitAll (children : list IndexingFactNode) :
  Forall (fun child => sound (Visit conf child)) children ->
  sound (VisitAll conf children).
Proof.
  induction 1 as [| child rest Hchild _ IH]; simpl.
  - apply sound_ret.
  - apply sound_bind; [exact Hchild | intros _; exact IH].
Qed.

Lemma sound_Visit (node : IndexingFactNode) :
  has_expected_anchors node = true -> sound (Visit conf node).
Proof.
  induction node as [kind anchors children IH] using IndexingFactNode_ind.
  intros Hnode. simpl in Hnode.
  apply andb_prop in Hnode. destruct Hnode as [Hanchors Hchildren].
  apply Nat.leb_le in Hanchors.
  assert (Hall : sound (VisitAll conf children)).
  { apply sound_VisitAll. rewrite forallb_forall in Hchildren.
    rewrite Forall_forall in IH |- *. intros child Hin. auto. }
  rewrite Visit_equation.
  destruct kind; simpl in Hanchors;
    repeat first
      [ exact Hall
      | apply sound_in_new_scope; exact Hall
      | apply sound_push_back_top
      | apply sound_ExtractFileFact
      | apply sound_ExtractModuleFact; exact Hanchors
      | apply sound_ExtractClassFact; exact Hanchors
      | apply sound_extract_instance; exact Hanchors
      | apply sound_ExtractVariableDefinitionFact; exact Hanchors
      | apply sound_ExtractVariableReferenceFact; exact Hanchors
      | apply sound_bind; [| intros ?] ].
Qed.

Lemma ExtractFileFact_runs (node : IndexingFactNode) (e : KytheFactsExtractor) :
  let file_vname := MakeVName conf (file_path_ e) (file_signature conf (file_path_ e)) in
  ExtractFileFact conf node e
  = Returns (file_vname, advance e [] [FactEntry file_vname "node/kind" "file"] 0).
Proof.
  destruct e as [file_path vnames scopes stream [a b c d]].
  unfold ExtractFileFact, GenerateFactString, read_file_path, write, bind, ret, advance.
  simpl. rewrite extend_top_nothing, !Nat.add_0_r. reflexivity.
Qed.

(** A file whose nodes have the anchors of their kinds is visited to the
    end, whatever the stream holds. *)

Lemma Visit_File_returns (file_path : string) (stream : list Entry)
    (anchors : list Anchor) (children : list IndexingFactNode) :
  has_expected_anchors (Node kFile anchors children) = true ->
  exists e', Visit conf (Node kFile anchors children)
               (new_KytheFactsExtractor file_path stream) = Returns (tt, e').
Proof.
  intros Hchildren. simpl in Hchildren.
  assert (Hall : sound (VisitAll conf children)).
  { apply sound_VisitAll. rewrite forallb_forall in Hchildren.
    apply Forall_forall. intros child Hin. apply sound_Visit. auto. }
  rewrite Visit_equation. unfold bind at 1. rewrite ExtractFileFact_runs.
  cbv zeta beta iota.
  match goal with
  | |- context [in_new_scope ?v ?body ?e] =>
      destruct (in_new_scope_returns v body e) as (added & emitted & k & Hrun);
      [constructor | exact Hall | rewrite Hrun; eauto]
  end.
Qed.

(** *** What a module or a class leaves behind *)

Lemma top_of_vnames_context (e e1 : KytheFactsExtractor) (enclosing : VName) :
  on_vnames_context VNameContext.top e = Returns (enclosing, e1) ->
  e1 = e /\ exists below, vnames_context_ e = below ++ [Some enclosing].
Proof.
  intros H. split.
  - exact (read_only_on_vnames_context _ read_only_VNameContext_top _ _ _ H).
  - unfold on_vnames_context, VNameContext.top, AutoPopStackBase.top, bind, get in H.
    simpl in H.
    destruct (stack_cases (vnames_context_ e)) as [Hempty | (below & top & Hstack)];
      rewrite ?Hempty, ?Hstack in H; simpl in H; [discriminate |].
    rewrite rev_unit in H. destruct top as [vname |]; simpl in H; [| discriminate].
    inversion H. subst vname. eauto.
Qed.

Lemma CreateScopeRelativeSignature_inversion (local_signature sig : string)
    (e e1 : KytheFactsExtractor) :
  CreateScopeRelativeSignature local_signature e = Returns (sig, e1) ->
  e1 = e /\
  exists below enclosing,
    vnames_context_ e = below ++ [Some enclosing] /\
    sig = (local_signature ++ "#" ++ signature enclosing)%string.
Proof.
  unfold CreateScopeRelativeSignature. intros H. step_in H.
  apply top_of_vnames_context in H0. destruct H0 as (-> & below & Hstack).
  inversion H. subst e1 sig. split; [reflexivity |].
  exists below, a. split; [exact Hstack | reflexivity].
Qed.

Lemma record_fact_inversion (kind_signature : string -> string) (kind_label : string)
    (node : IndexingFactNode) (vname : VName) (e e1 : KytheFactsExtractor) :
  (name <- expected_anchor node 0 ;;
   sig <- CreateScopeRelativeSignature (kind_signature (value name)) ;;
   file_path <- read_file_path ;;
   GenerateFactString (MakeVName conf file_path sig) "node/kind" kind_label ;;;
   enclosing <- on_vnames_context VNameContext.top ;;
   GenerateEdgeString (MakeVName conf file_path sig) "childof" enclosing ;;;
   ret (MakeVName conf file_path sig)) e = Returns (vname, e1) ->
  exists name below enclosing emitted,
    nth_error (node_anchors node) 0 = Some name /\
    vnames_context_ e = below ++ [Some enclosing] /\
    vname = vname_inside conf e enclosing (kind_signature (value name)) /\
    e1 = advance e [] emitted 0.
Proof.
  intros H. step_in H. unfold expected_anchor in H0.
  destruct (nth_error (node_anchors node) 0) as [name |] eqn:Hname; [| discriminate].
  inversion H0. subst a e0. clear H0.
  step_in H. apply CreateScopeRelativeSignature_inversion in H0.
  destruct H0 as (-> & below & enclosing & Hstack & ->).
  step_in H. inversion H0. subst a e0. clear H0.
  step_in H. unfold GenerateFactString in H0. rewrite write_advances in H0.
  inversion H0. subst a e0. clear H0.
  step_in H. apply top_of_vnames_context in H0. destruct H0 as (-> & _).
  step_in H. unfold GenerateEdgeString in H0. rewrite write_advances in H0.
  inversion H0. subst a0 e0. clear H0.
  inversion H. rewrite advance_twice. simpl.
  exists name, below, enclosing. eexists.
  split; [reflexivity |]. split; [exact Hstack |]. split; reflexivity.
Qed.

Lemma scope_node_advances (kind : IndexingFactType) (anchors : list Anchor)
    (children : list IndexingFactNode) (e e' : KytheFactsExtractor) :
  kind = kModule \/ kind = kClass ->
  Visit conf (Node kind anchors children) e = Returns (tt, e') ->
  exists name below enclosing inner emitted k,
    let own := vname_inside conf e enclosing
                 (match kind with
                  | kClass => CreateClassSignature (value name)
                  | _ => CreateModuleSignature (value name)
                  end) in
    nth_error anchors 0 = Some name /\
    vnames_context_ e = below ++ [Some enclosing] /\
    e' = advance e (own :: inner) emitted k /\
    exists emitted0 emitted1 k1,
      let inside := entered (advance e [own] emitted0 0) own in
      VisitAll conf children inside = Returns (tt, advance inside inner emitted1 k1).
Proof.
  intros Hkind H. rewrite Visit_equation in H.
  assert (Hchildren : orderly (VisitAll conf children)).
  { apply orderly_VisitAll, Forall_forall. intros child _. apply orderly_Visit. }
  destruct Hkind as [-> | ->]; step_in H;
    apply record_fact_inversion in H0;
    destruct H0 as (name & below & enclosing & emitted1 & Hname & Hstack & -> & ->);
    step_in H; apply push_back_top_advances in H0; subst e0;
    apply (in_new_scope_inversion _ _ _ _ _ Hchildren) in H;
    destruct H as (inner & emitted2 & k & Hinside & ->);
    rewrite !advance_twice in *; simpl in *;
    exists name, below, enclosing, inner; do 2 eexists;
    (split; [exact Hname | split; [exact Hstack | split; [reflexivity |]]]);
    do 3 eexists; exact Hinside.
Qed.

(** A variable definition that returns has appended the VName of the
    variable to the top scope, before whatever its children declare. *)

Lemma variable_definition_advances (anchors : list Anchor)
    (children : list IndexingFactNode) (e e' : KytheFactsExtractor) :
  Visit conf (Node kVariableDefinition anchors children) e = Returns (tt, e') ->
  exists name below enclosing rest emitted k,
    nth_error anchors 0 = Some name /\
    vnames_context_ e = below ++ [Some enclosing] /\
    e' = advance e
           (vname_inside conf e enclosing (CreateVariableSignature (value name)) :: rest)
           emitted k.
Proof.
  intros H. rewrite Visit_equation in H.
  assert (Hchildren : orderly (VisitAll conf children)).
  { apply orderly_VisitAll, Forall_forall. intros child _. apply orderly_Visit. }
  step_in H. apply Hchildren in H. destruct H as (rest & emitted3 & k & ->).
  rename H0 into H. unfold ExtractVariableDefinitionFact in H.
  step_in H. unfold expected_anchor in H0. cbn [node_anchors] in H0.
  destruct (nth_error anchors 0) as [name |] eqn:Hname; [| discriminate].
  inversion H0. subst. clear H0.
  step_in H. apply CreateScopeRelativeSignature_inversion in H0.
  destruct H0 as (-> & below & enclosing & Hstack & ->).
  step_in H. inversion H0. subst. clear H0.
  step_in H. unfold GenerateFactString in H0. rewrite write_advances in H0.
  inversion H0. subst. clear H0.
  step_in H. apply top_of_vnames_context in H0. destruct H0 as (-> & _).
  step_in H. unfold GenerateEdgeString in H0. rewrite write_advances in H0.
  inversion H0. subst. clear H0.
  step_in H. apply push_back_top_advances in H0. subst.
  step_in H. apply writes_only_PrintAnchorVName in H0. destruct H0 as (emitted2 & ->).
  step_in H. unfold GenerateEdgeString in H0. rewrite write_advances in H0.
  inversion H0. subst. clear H0.
  inversion H. rewrite !advance_twice. simpl.
  eexists. exists below, enclosing, rest. do 2 eexists.
  split; [reflexivity |]. split; [exact Hstack | reflexivity].
Qed.

(** The visit of a list of nodes that returns has returned from each. *)

Lemma VisitAll_app (before after : list IndexingFactNode) (child : IndexingFactNode)
    (e e' : KytheFactsExtractor) :
  VisitAll conf (before ++ child :: after) e = Returns (tt, e') ->
  exists e1 e2,
    VisitAll conf before e = Returns (tt, e1) /\
    Visit conf child e1 = Returns (tt, e2) /\
    VisitAll conf after e2 = Returns (tt, e').
Proof.
  revert e. induction before as [| first before IH]; intros e H; simpl in H.
  - step_in H. destruct a. exists e, e0. split; [reflexivity |]. split; assumption.
  - step_in H. destruct a. destruct (IH _ H) as (e1 & e2 & Hbefore & Hchild & Hafter).
    exists e1, e2. split; [| split; assumption].
    simpl. unfold bind. rewrite H0. exact Hbefore.
Qed.

End ExtractorProperties.

Lemma push_back_top_needs_scope (vname : VName) (u : unit) (e e' : KytheFactsExtractor) :
  on_scope_context (ScopeContext.push_back_top vname) e = Returns (u, e') ->
  exists below vnames, scope_context_ e = below ++ [Some vnames].
Proof.
  unfold on_scope_context, ScopeContext.push_back_top, ScopeContext.top,
    AutoPopStackBase.top.
  destruct (stack_cases (scope_context_ e)) as [-> | (below & [top |] & ->)].
  - discriminate.
  - eauto.
  - unfold bind, get. simpl. rewrite rev_unit. simpl. discriminate.
Qed.

(** ** C3 *)

Lemma orderly_VisitAll_of_any (conf : Configuration) (nodes : list IndexingFactNode) :
  orderly (VisitAll conf nodes).
Proof. apply orderly_VisitAll, Forall_forall. intros node _. apply orderly_Visit. Qed.

Lemma at_location_snoc_inversion (below : ScopeContext.t) (scope : pointer Scope)
    (l : Location) (vname : VName) :
  ScopeContext.at_location (below ++ [scope]) l = Some vname ->
  ScopeContext.at_location below l = Some vname \/
  (scope_index l = length below /\
   exists vnames, scope = Some vnames /\ nth_error vnames (vname_index l) = Some vname).
Proof.
  intros H. pose proof (at_location_in_stack _ _ _ H) as Hlt.
  rewrite length_app in Hlt. simpl in Hlt.
  destruct (Nat.lt_ge_cases (scope_index l) (length below)) as [Hin | Hout].
  - left. rewrite at_location_below in H by exact Hin. exact H.
  - right. assert (Htop : scope_index l = length below) by lia.
    rewrite at_location_top in H by exact Htop. split; [exact Htop |].
    destruct scope as [vnames |]; [eauto | discriminate H].
Qed.

Lemma no_match_below (below : ScopeContext.t) (scope : pointer Scope) (prefix : string) :
  ScopeContext.no_match (below ++ [scope]) prefix -> ScopeContext.no_match below prefix.
Proof.
  intros H l vname Hat. apply (H l).
  rewrite at_location_below; [exact Hat | exact (at_location_in_stack _ _ _ Hat)].
Qed.

(** A match in the scopes opened last is found there, whatever the scopes
    below them hold. *)

Lemma search_in_own_chain (prefix : string) (enclosing_scopes own_chain : ScopeContext.t) :
  (exists l vname, ScopeContext.at_location own_chain l = Some vname /\
                   StartsWith (signature vname) prefix = true) ->
  exists l,
    ScopeContext.first_with_prefix prefix
      (ScopeContext.search_order (enclosing_scopes ++ own_chain)) = Some l /\
    length enclosing_scopes <= scope_index l.
Proof.
  induction own_chain as [| scope chain IH] using rev_ind;
    intros (l & vname & Hat & Hmatch).
  - destruct l as [[| i] j]; discriminate Hat.
  - rewrite app_assoc, search_order_snoc, first_with_prefix_app.
    apply at_location_snoc_inversion in Hat.
    destruct scope as [vnames |].
    + pose proof (first_in_scope prefix (length (enclosing_scopes ++ chain)) vnames)
        as Hfirst.
      destruct (ScopeContext.first_with_prefix prefix
                  (ScopeContext.declarations_latest_first
                     (length (enclosing_scopes ++ chain)) vnames)) as [l0 |].
      * exists l0. split; [reflexivity |]. destruct Hfirst as (Hi & _).
        rewrite Hi, length_app. lia.
      * destruct Hat as [Hat | (_ & vs & Hvs & Hat)]; [apply IH; eauto |].
        inversion Hvs. subst vs. rewrite (Hfirst _ _ Hat) in Hmatch. discriminate Hmatch.
    + destruct Hat as [Hat | (_ & vs & Hvs & _)]; [apply IH; eauto | discriminate Hvs].
Qed.

(** Scopes without a match are passed over: the search gives what it gives
    on the scopes below them. *)

Lemma search_passes_own_chain (prefix : string)
    (enclosing_scopes own_chain : ScopeContext.t) :
  ScopeContext.no_match own_chain prefix ->
  ScopeContext.first_with_prefix prefix
    (ScopeContext.search_order (enclosing_scopes ++ own_chain))
  = ScopeContext.first_with_prefix prefix (ScopeContext.search_order enclosing_scopes).
Proof.
  induction own_chain as [| scope chain IH] using rev_ind; intros Hnone.
  - rewrite app_nil_r. reflexivity.
  - rewrite app_assoc, search_order_snoc, first_with_prefix_app.
    specialize (IH (no_match_below _ _ _ Hnone)).
    destruct scope as [vnames |]; [| exact IH].
    pose proof (first_in_scope prefix (length (enclosing_scopes ++ chain)) vnames)
      as Hfirst.
    destruct (ScopeContext.first_with_prefix prefix
                (ScopeContext.declarations_latest_first
                   (length (enclosing_scopes ++ chain)) vnames)) as [l0 |];
      [| exact IH].
    exfalso. destruct Hfirst as (_ & (vname & Hat & Hmatch) & _).
    rewrite (Hnone (mkLocation (length chain) (vname_index l0)) vname) in Hmatch;
      [discriminate Hmatch |].
    rewrite at_location_top by reflexivity. exact Hat.
Qed.




(** When [foo] is left, the scope of the file holds [foo] and the [x]
    declared in it. *)
Example scope_of_file_after_module_foo :
  scope_context_ Examples.after_module_foo
  = [Some [Examples.vname_of "foo#module#top.sv";
           Examples.vname_of "x#variable#foo#module#top.sv"]].
Proof. reflexivity. Qed.

(** The reference to [x] in a [bar] that declares no [x] finds the [x] of
    [foo]. *)
Example sibling_declaration_is_found :
  filter (is_edge_named "ref") (stream_ Examples.after_two_modules)
  = [EdgeEntry (Examples.vname_of "top.sv@60:61") "ref"
               (Examples.vname_of "x#variable#foo#module#top.sv")].
Proof. vm_compute. reflexivity. Qed.

(** A reference in [bar] after the declaration of [x] in [bar] finds that
    declaration. *)
Example own_declaration_is_found :
  match Visit Examples.conf
          (Node kFile [] [Examples.module_foo; Examples.module_bar_referring_late])
          (new_KytheFactsExtractor "top.sv" []) with
  | Returns (_, e') =>
      filter (is_edge_named "ref") (stream_ e')
      = [EdgeEntry (Examples.vname_of "top.sv@60:61") "ref"
                   (Examples.vname_of "x#variable#bar#module#top.sv")]
  | _ => False
  end.
Proof. vm_compute. reflexivity. Qed.

(** At that reference the search runs on the scope of the file, as [foo]
    left it and with [bar] appended, below the scope of [bar]. *)
Example search_from_inside_bar :
  ScopeContext.SearchForDefinition "x#variable"
    (ScopeContext.extend_top (scope_context_ Examples.after_module_foo)
       [Examples.vname_of "bar#module#top.sv"] ++ [Some Examples.scope_of_bar])
  = Returns (Some (mkLocation 1 0),
             ScopeContext.extend_top (scope_context_ Examples.after_module_foo)
               [Examples.vname_of "bar#module#top.sv"] ++ [Some Examples.scope_of_bar]).
Proof. reflexivity. Qed.

(** Below a declaration of [x] in the file, the reference in [bar] finds
    the [x] of [foo], which was added to the scope of the file later. *)
Example sibling_declaration_is_found_first :
  match Visit Examples.conf Examples.two_modules_below_x
          (new_KytheFactsExtractor "top.sv" []) with
  | Returns (_, e') =>
      filter (is_edge_named "ref") (stream_ e')
      = [EdgeEntry (Examples.vname_of "top.sv@60:61") "ref"
                   (Examples.vname_of "x#variable#foo#module#top.sv")]
  | _ => False
  end.
Proof. vm_compute. reflexivity. Qed.

(** ** C4 *)

Lemma no_match_not_found (prefix : string) (stack_ : ScopeContext.t) :
  ScopeContext.no_null_scope stack_ ->
  ScopeContext.no_match stack_ prefix ->
  ScopeContext.SearchForDefinition prefix stack_ = Returns (None, stack_).
Proof.
  intros Hlive Hnone.
  destruct (SearchForDefinition_first_match prefix stack_ Hlive)
    as ([l |] & Hrun & Hfirst); [| exact Hrun].
  destruct Hfirst as ((vname & Hat & Hmatch) & _).
  rewrite (Hnone l vname Hat) in Hmatch. discriminate.
Qed.

(** C4: when no VName in any scope of the stack has a signature that starts
    with the searched prefix, [SearchForDefinition] returns null. The
    extractor goes on from there: a reference writes its anchor fact and no
    "ref" edge, an instance writes its own fact and no "instantiates" edge,
    and the visit continues with the children and the following nodes on
    stacks that are as before. *)
Theorem unresolved_reference_is_not_fatal
    (conf : Configuration) (e : KytheFactsExtractor) :
  ScopeContext.no_null_scope (scope_context_ e) ->
  (forall prefix,
     ScopeContext.no_match (scope_context_ e) prefix ->
     ScopeContext.SearchForDefinition prefix (scope_context_ e)
     = Returns (nullptr, scope_context_ e)) /\
  (forall anchors children rest name,
     nth_error anchors 0 = Some name ->
     ScopeContext.no_match (scope_context_ e) (CreateVariableSignature (value name)) ->
     VisitAll conf (Node kVariableReference anchors children :: rest) e
     = (VisitAll conf children ;;; VisitAll conf rest)
         (advance e [] [FactEntry (anchor_vname_of conf e name) "node/kind" "anchor"] 0)) /\
  (forall kind anchors children rest type_name instance_name below enclosing,
     kind = kModuleInstance \/ kind = kClassInstance ->
     nth_error anchors 0 = Some type_name ->
     nth_error anchors 1 = Some instance_name ->
     vnames_context_ e = below ++ [Some enclosing] ->
     ScopeContext.no_match (scope_context_ e)
       (match kind with
        | kClassInstance => CreateClassSignature (value type_name)
        | _ => CreateModuleSignature (value type_name)
        end) ->
     VisitAll conf (Node kind anchors children :: rest) e
     = (VisitAll conf children ;;; VisitAll conf rest)
         (advance e []
            [FactEntry (vname_inside conf e enclosing
                          (CreateVariableSignature (value instance_name)))
                       "node/kind" "variable"] 0)).
Proof.
  intros Hlive. split; [| split].
  - intros prefix Hnone. apply no_match_not_found; assumption.
  - intros anchors children rest name Hname Hnone.
    pose proof (no_match_not_found _ _ Hlive Hnone) as Hsearch.
    cbn [VisitAll]. rewrite Visit_equation. unfold bind at 1 2.
    rewrite (ExtractVariableReferenceFact_runs conf
               (Node kVariableReference anchors children) name None e Hname Hsearch)
      by discriminate.
    reflexivity.
  - intros kind anchors children rest type_name instance_name below enclosing
      Hkind Htype Hname Hstack Hnone.
    pose proof (no_match_not_found _ _ Hlive Hnone) as Hsearch.
    cbn [VisitAll]. rewrite Visit_equation. unfold bind at 1.
    destruct Hkind as [-> | ->]; unfold bind at 1;
      unfold ExtractModuleInstanceFact, ExtractClassInstances;
      rewrite (extract_instance_runs conf _ (Node _ anchors children)
                 type_name instance_name None below enclosing e
                 Htype Hname Hstack Hsearch) by discriminate;
      reflexivity.
Qed.

Lemma no_match_after_module_foo (prefix : string) :
  StartsWith "foo#module#top.sv" prefix = false ->
  StartsWith "x#variable#foo#module#top.sv" prefix = false ->
  ScopeContext.no_match (scope_context_ Examples.after_module_foo) prefix.
Proof.
  intros Hfoo Hx [[| i] [| [| j]]] vname H; simpl in H.
  - inversion H. exact Hfoo.
  - inversion H. exact Hx.
  - destruct j; discriminate.
  - destruct i; discriminate.
  - destruct i; discriminate.
  - destruct i; discriminate.
Qed.

Lemma unresolved_reference_is_not_fatal_witness :
  ScopeContext.SearchForDefinition "y#variable" (scope_context_ Examples.after_module_foo)
    = Returns (nullptr, scope_context_ Examples.after_module_foo) /\
  VisitAll Examples.conf
    [Node kVariableReference [mkAnchor 60 61 "y"] []; Examples.instance_of_baz]
    Examples.after_module_foo
  = (VisitAll Examples.conf [] ;;; VisitAll Examples.conf [Examples.instance_of_baz])
      (advance Examples.after_module_foo []
         [FactEntry (Examples.vname_of "top.sv@60:61") "node/kind" "anchor"] 0) /\
  VisitAll Examples.conf [Examples.instance_of_baz; Examples.reference_to_x]
    Examples.after_module_foo
  = (VisitAll Examples.conf [] ;;; VisitAll Examples.conf [Examples.reference_to_x])
      (advance Examples.after_module_foo []
         [FactEntry (Examples.vname_of "inst_of_baz#variable#top.sv")
                    "node/kind" "variable"] 0).
Proof.
  destruct (unresolved_reference_is_not_fatal Examples.conf Examples.after_module_foo)
    as (Hsearch & Hreference & Hinstance).
  - unfold ScopeContext.no_null_scope. simpl. repeat constructor; discriminate.
  - split; [| split].
    + apply Hsearch. apply no_match_after_module_foo; reflexivity.
    + apply (Hreference [mkAnchor 60 61 "y"] [] [Examples.instance_of_baz]
               (mkAnchor 60 61 "y")).
      * reflexivity.
      * apply no_match_after_module_foo; reflexivity.
    + apply (Hinstance kModuleInstance
               [mkAnchor 50 53 "baz"; mkAnchor 54 65 "inst_of_baz"] []
               [Examples.reference_to_x]
               (mkAnchor 50 53 "baz") (mkAnchor 54 65 "inst_of_baz")
               [] Examples.file_vname).
      * left. reflexivity.
      * reflexivity.
      * reflexivity.
      * reflexivity.
      * apply no_match_after_module_foo; reflexivity.
Defined.

(** An instance of a module declared before it gets its edge. *)
Example instance_of_declared_module :
  match Visit Examples.conf (Node kFile [] [Examples.module_foo; Examples.instance_of_foo])
          (new_KytheFactsExtractor "top.sv" []) with
  | Returns (_, e') =>
      filter (is_edge_named "instantiates") (stream_ e')
      = [EdgeEntry (Examples.vname_of "inst_of_foo#variable#top.sv") "instantiates"
                   (Examples.vname_of "foo#module#top.sv")]
  | _ => False
  end.
Proof. vm_compute. reflexivity. Qed.

(** ** C5 *)

Lemma VNameContext_top_null (below : VNameContext.t) :
  VNameContext.top (below ++ [nullptr]) = Fatal.
Proof.
  unfold VNameContext.top, AutoPopStackBase.top, bind, get.
  rewrite rev_unit. reflexivity.
Qed.

(** C5: [CreateScopeRelativeSignature] aborts, and returns no value at all,
    when the stack of VNames is empty; when a VName is on top of the stack
    it does not abort, leaves the extractor as it is and returns the local
    signature followed by [#] and the signature of that VName. *)
Theorem CreateScopeRelativeSignature_needs_enclosing_vname
    (local_signature : string) (e : KytheFactsExtractor) :
  (vnames_context_ e = [] ->
   CreateScopeRelativeSignature local_signature e = Fatal) /\
  (forall below enclosing,
     vnames_context_ e = below ++ [Some enclosing] ->
     CreateScopeRelativeSignature local_signature e
     = Returns ((local_signature ++ "#" ++ signature enclosing)%string, e)).
Proof.
  unfold CreateScopeRelativeSignature, on_vnames_context, VNameContext.top,
    AutoPopStackBase.top, bind, get.
  split.
  - intros ->. reflexivity.
  - intros below enclosing Hstack. destruct e as [file_path vnames scopes stream ops].
    simpl in Hstack |- *. subst vnames. rewrite rev_unit. reflexivity.
Qed.

Lemma CreateScopeRelativeSignature_needs_enclosing_vname_witness :
  CreateScopeRelativeSignature "x#variable" (new_KytheFactsExtractor "top.sv" []) = Fatal /\
  CreateScopeRelativeSignature "x#variable" Examples.in_file
  = Returns ("x#variable#top.sv"%string, Examples.in_file).
Proof.
  split.
  - apply (proj1 (CreateScopeRelativeSignature_needs_enclosing_vname
                    "x#variable" (new_KytheFactsExtractor "top.sv" []))).
    reflexivity.
  - apply (proj2 (CreateScopeRelativeSignature_needs_enclosing_vname
                    "x#variable" Examples.in_file) [] Examples.file_vname).
    reflexivity.
Defined.

(** ** C6 *)

Lemma append_cancel_left (s t1 t2 : string) :
  (s ++ t1)%string = (s ++ t2)%string -> t1 = t2.
Proof.
  induction s as [| c s IH]; simpl; intros H; [exact H |].
  inversion H. auto.
Qed.

Lemma append_associative (s t u : string) :
  ((s ++ t) ++ u)%string = (s ++ (t ++ u))%string.
Proof. induction s as [| c s IH]; simpl; [reflexivity | now rewrite IH]. Qed.

(** C6: for every name, the module, class and variable signatures of that
    name differ from one another, and so do the signatures of a module, a
    class and a variable of that name declared inside the same entity. *)
Theorem kind_tags_separate_signatures (n : string) :
  CreateModuleSignature n <> CreateClassSignature n /\
  CreateModuleSignature n <> CreateVariableSignature n /\
  CreateClassSignature n <> CreateVariableSignature n /\
  (forall conf e enclosing,
     signature (vname_inside conf e enclosing (CreateModuleSignature n))
       <> signature (vname_inside conf e enclosing (CreateClassSignature n)) /\
     signature (vname_inside conf e enclosing (CreateModuleSignature n))
       <> signature (vname_inside conf e enclosing (CreateVariableSignature n)) /\
     signature (vname_inside conf e enclosing (CreateClassSignature n))
       <> signature (vname_inside conf e enclosing (CreateVariableSignature n))).
Proof.
  unfold CreateModuleSignature, CreateClassSignature, CreateVariableSignature,
    vname_inside, MakeVName. simpl.
  repeat split; intros H;
    repeat rewrite append_associative in H;
    apply append_cancel_left in H; discriminate H.
Qed.

(** ** C8 *)

(** C8: when [Visit] returns from a file node on a new extractor, each
    stack has been pushed as often as it has been popped, at least once,
    and both stacks are empty again. The visit does return when every node
    of the tree has the anchors of its kind; an unresolved reference does
    not end it. *)
Theorem Visit_File_balances_the_stacks
    (conf : Configuration) (file_path : string) (stream : list Entry)
    (anchors : list Anchor) (children : list IndexingFactNode) :
  (forall e',
     Visit conf (Node kFile anchors children) (new_KytheFactsExtractor file_path stream)
       = Returns (tt, e') ->
     scope_pushes (stack_operations_ e') = scope_pops (stack_operations_ e') /\
     vname_pushes (stack_operations_ e') = vname_pops (stack_operations_ e') /\
     0 < scope_pushes (stack_operations_ e') /\
     0 < vname_pushes (stack_operations_ e') /\
     scope_context_ e' = [] /\
     vnames_context_ e' = []) /\
  (has_expected_anchors (Node kFile anchors children) = true ->
   exists e',
     Visit conf (Node kFile anchors children) (new_KytheFactsExtractor file_path stream)
       = Returns (tt, e')).
Proof.
  split; [| apply Visit_File_returns].
  intros e' Hvisit. rewrite Visit_equation in Hvisit. step_in Hvisit.
  rewrite ExtractFileFact_runs in Hvisit0. inversion Hvisit0. subst a e. clear Hvisit0.
  assert (Hchildren : orderly (VisitAll conf children)).
  { apply orderly_VisitAll, Forall_forall. intros child _. apply orderly_Visit. }
  apply (in_new_scope_advances _ _ _ _ _ Hchildren) in Hvisit.
  destruct Hvisit as (added & emitted & k & ->). rewrite advance_twice. simpl.
  repeat split; lia.
Qed.

Lemma Visit_File_balances_the_stacks_witness :
  (scope_pushes (stack_operations_ Examples.after_two_modules)
     = scope_pops (stack_operations_ Examples.after_two_modules) /\
   vname_pushes (stack_operations_ Examples.after_two_modules)
     = vname_pops (stack_operations_ Examples.after_two_modules) /\
   0 < scope_pushes (stack_operations_ Examples.after_two_modules) /\
   0 < vname_pushes (stack_operations_ Examples.after_two_modules) /\
   scope_context_ Examples.after_two_modules = [] /\
   vnames_context_ Examples.after_two_modules = []) /\
  exists e',
    Visit Examples.conf (Node kFile [] [Examples.module_foo; Examples.module_bar])
      (new_KytheFactsExtractor "top.sv" []) = Returns (tt, e').
Proof.
  destruct (Visit_File_balances_the_stacks Examples.conf "top.sv" [] []
              [Examples.module_foo; Examples.module_bar]) as (Hbalance & Hreturns).
  split.
  - apply Hbalance. vm_compute. reflexivity.
  - apply Hreturns. reflexivity.
Defined.

Example three_scopes_pushed_and_popped :
  stack_operations_ Examples.after_two_modules = mkStackOperations 3 3 3 3.
Proof. reflexivity. Qed.

(** A module node without its name anchor breaks the contract of the tree:
    the visit aborts. *)
Example module_without_name_is_fatal :
  Visit Examples.conf (Node kFile [] [Node kModule [] []])
    (new_KytheFactsExtractor "top.sv" []) = Fatal.
Proof. reflexivity. Qed.

(** ** C10 *)

(** C10: [IsStorageTypeOfDataTypeSpecified] returns true exactly when the
    pointer [GetSubtreeAsSymbol] gives it for position 0 of the symbol as a
    [kDataType] node is not null; on a null pointer it returns false and
    does not fail; it fails only where [GetSubtreeAsSymbol] itself does. *)
Theorem IsStorageTypeOfDataTypeSpecified_tests_child_0
    (Symbol NodeEnum : Type) (kDataType : NodeEnum)
    (GetSubtreeAsSymbol : Symbol -> NodeEnum -> nat -> Outcome (pointer Symbol))
    (symbol : Symbol) :
  match GetSubtreeAsSymbol symbol kDataType 0 with
  | Returns storage =>
      exists specified,
        IsStorageTypeOfDataTypeSpecified Symbol NodeEnum kDataType GetSubtreeAsSymbol symbol
          = Returns specified /\
        (specified = true <-> storage <> nullptr) /\
        (storage = nullptr -> specified = false)
  | Fatal =>
      IsStorageTypeOfDataTypeSpecified Symbol NodeEnum kDataType GetSubtreeAsSymbol symbol
        = Fatal
  | Undefined =>
      IsStorageTypeOfDataTypeSpecified Symbol NodeEnum kDataType GetSubtreeAsSymbol symbol
        = Undefined
  end.
Proof.
  unfold IsStorageTypeOfDataTypeSpecified.
  destruct (GetSubtreeAsSymbol symbol kDataType 0) as [[child |] | |]; simpl.
  - exists true. repeat split; [discriminate | discriminate].
  - exists false. repeat split; [discriminate | intros H; now elim H].
  - reflexivity.
  - reflexivity.
Qed.

Lemma IsStorageTypeOfDataTypeSpecified_tests_child_0_witness :
  IsStorageTypeOfDataTypeSpecified
    SyntaxTreeExample.Symbol SyntaxTreeExample.NodeEnum SyntaxTreeExample.kDataType
    SyntaxTreeExample.GetSubtreeAsSymbol
    (SyntaxTreeExample.SyntaxTreeNode SyntaxTreeExample.kDataType
       [nullptr; Some (SyntaxTreeExample.Leaf "int")])
  = Returns false.
Proof.
  pose proof (IsStorageTypeOfDataTypeSpecified_tests_child_0
                SyntaxTreeExample.Symbol SyntaxTreeExample.NodeEnum
                SyntaxTreeExample.kDataType SyntaxTreeExample.GetSubtreeAsSymbol
                (SyntaxTreeExample.SyntaxTreeNode SyntaxTreeExample.kDataType
                   [nullptr; Some (SyntaxTreeExample.Leaf "int")])) as H.
  simpl in H. destruct H as (specified & Hrun & _ & Hnull).
  rewrite Hrun, (Hnull eq_refl). reflexivity.
Defined.

Example storage_type_specified :
  IsStorageTypeOfDataTypeSpecified
    SyntaxTreeExample.Symbol SyntaxTreeExample.NodeEnum SyntaxTreeExample.kDataType
    SyntaxTreeExample.GetSubtreeAsSymbol
    (SyntaxTreeExample.SyntaxTreeNode SyntaxTreeExample.kDataType
       [Some (SyntaxTreeExample.Leaf "logic"); nullptr])
  = Returns true.
Proof. reflexivity. Qed.

Example storage_type_of_another_node :
  IsStorageTypeOfDataTypeSpecified
    SyntaxTreeExample.Symbol SyntaxTreeExample.NodeEnum SyntaxTreeExample.kDataType
    SyntaxTreeExample.GetSubtreeAsSymbol
    (SyntaxTreeExample.SyntaxTreeNode SyntaxTreeExample.kDataDeclaration [nullptr])
  = Fatal.
Proof. reflexivity. Qed.

(** * Further properties of the search and of [top] *)

(** ** The search on any stack, null pointers included *)

Lemma for_each_until_cons {S A B : Type} (x : A) (rest : list A)
    (body : A -> Method S (option B)) (s : S) :
  for_each_until (x :: rest) body s
  = match body x s with
    | Returns (Some b, s') => Returns (Some b, s')
    | Returns (None, s') => for_each_until rest body s'
    | Fatal => Fatal
    | Undefined => Undefined
    end.
Proof.
  simpl. unfold bind. destruct (body x s) as [[[b |] s'] | |]; reflexivity.
Qed.

Lemma search_of_one_scope (prefix : string) (i : nat) (vnames : Scope)
    (s : ScopeContext.t) :
  (scope_vnames <- ScopeContext.dereference (Some vnames) ;;
   for_each_until (reverse_range scope_vnames)
     (fun '(j, vname) =>
        if StartsWith (signature vname) prefix
        then ret (Some (mkLocation i j))
        else ret None)) s
  = Returns (ScopeContext.first_with_prefix prefix
               (ScopeContext.declarations_latest_first i vnames), s).
Proof.
  unfold bind.
  change (ScopeContext.dereference (Some vnames) s) with (Returns (vnames, s)).
  cbv beta iota. rewrite search_in_scope. reflexivity.
Qed.

Lemma search_loop_any_state (prefix : string) (range : list (nat * pointer Scope))
    (s1 s2 : ScopeContext.t) :
  for_each_until range
    (fun '(i, scope) =>
       vnames <- ScopeContext.dereference scope ;;
       for_each_until (reverse_range vnames)
         (fun '(j, vname) =>
            if StartsWith (signature vname) prefix
            then ret (Some (mkLocation i j))
            else ret None)) s1
  = match for_each_until range
            (fun '(i, scope) =>
               vnames <- ScopeContext.dereference scope ;;
               for_each_until (reverse_range vnames)
                 (fun '(j, vname) =>
                    if StartsWith (signature vname) prefix
                    then ret (Some (mkLocation i j))
                    else ret None)) s2 with
    | Returns (r, _) => Returns (r, s1)
    | Fatal => Fatal
    | Undefined => Undefined
    end.
Proof.
  induction range as [| [i [vnames |]] rest IH].
  - reflexivity.
  - rewrite !for_each_until_cons, !search_of_one_scope.
    destruct (ScopeContext.first_with_prefix prefix
                (ScopeContext.declarations_latest_first i vnames)) as [l |];
      [reflexivity | exact IH].
  - rewrite !for_each_until_cons. reflexivity.
Qed.

(** The search looks at the top scope and, when nothing there matches, goes
    on as the search on the stack below it. *)

Lemma SearchForDefinition_snoc (prefix : string) (below : ScopeContext.t)
    (scope : pointer Scope) :
  ScopeContext.SearchForDefinition prefix (below ++ [scope])
  = match scope with
    | None => Undefined
    | Some vnames =>
        match ScopeContext.first_with_prefix prefix
                (ScopeContext.declarations_latest_first (length below) vnames) with
        | Some l => Returns (Some l, below ++ [scope])
        | None =>
            match ScopeContext.SearchForDefinition prefix below with
            | Returns (r, _) => Returns (r, below ++ [scope])
            | Fatal => Fatal
            | Undefined => Undefined
            end
        end
    end.
Proof.
  unfold ScopeContext.SearchForDefinition.
  unfold bind at 1 3. unfold get. cbv beta iota.
  rewrite reverse_range_snoc, for_each_until_cons.
  destruct scope as [vnames |]; [| reflexivity].
  rewrite search_of_one_scope.
  destruct (ScopeContext.first_with_prefix prefix
              (ScopeContext.declarations_latest_first (length below) vnames))
    as [l |]; [reflexivity |].
  apply search_loop_any_state.
Qed.

Lemma no_match_in_scope (prefix : string) (i : nat) (vnames : Scope) :
  ScopeContext.first_with_prefix prefix (ScopeContext.declarations_latest_first i vnames)
    = None <->
  Forall (fun vname => StartsWith (signature vname) prefix = false) vnames.
Proof.
  pose proof (first_in_scope prefix i vnames) as H. split.
  - intros Hnone. rewrite Hnone in H. apply Forall_forall. intros vname Hin.
    apply In_nth_error in Hin. destruct Hin as (j & Hj). eauto.
  - intros Hall.
    destruct (ScopeContext.first_with_prefix prefix
                (ScopeContext.declarations_latest_first i vnames)) as [l |];
      [| reflexivity].
    destruct H as (_ & (vname & Hat & Hmatch) & _).
    rewrite Forall_forall in Hall. apply nth_error_In in Hat.
    rewrite (Hall vname Hat) in Hmatch. discriminate.
Qed.

Lemma SearchForDefinition_nil (prefix : string) :
  ScopeContext.SearchForDefinition prefix [] = Returns (None, []).
Proof. reflexivity. Qed.

(** X1: on any stack, null pointers included, a pointer the search returns
    points at an element of a scope of the stack whose signature starts with
    the prefix; every scope above that scope was a non-null pointer to a
    scope without a match, and no VName declared later in the scope
    matches. *)
Theorem SearchForDefinition_result_is_a_live_element
    (prefix : string) (stack_ : ScopeContext.t) (l : Location)
    (stack_after : ScopeContext.t) :
  ScopeContext.SearchForDefinition prefix stack_ = Returns (Some l, stack_after) ->
  exists vnames vname,
    nth_error stack_ (scope_index l) = Some (Some vnames) /\
    nth_error vnames (vname_index l) = Some vname /\
    StartsWith (signature vname) prefix = true /\
    (forall i, scope_index l < i -> i < length stack_ ->
               exists scope, nth_error stack_ i = Some scope /\ passed_over prefix scope) /\
    (forall j later, vname_index l < j -> nth_error vnames j = Some later ->
                     StartsWith (signature later) prefix = false).
Proof.
  revert l stack_after.
  induction stack_ as [| scope below IH] using rev_ind; intros l stack_after H.
  - rewrite SearchForDefinition_nil in H. discriminate.
  - rewrite SearchForDefinition_snoc in H. destruct scope as [top |]; [| discriminate].
    pose proof (first_in_scope prefix (length below) top) as Htop.
    destruct (ScopeContext.first_with_prefix prefix
                (ScopeContext.declarations_latest_first (length below) top))
      as [l0 |] eqn:Hfirst.
    + inversion H. subst l0 stack_after.
      destruct Htop as (Hi & (vname & Hat & Hmatch) & Hlater).
      exists top, vname. rewrite Hi, nth_error_app2, Nat.sub_diag by lia.
      split; [reflexivity |]. split; [exact Hat |]. split; [exact Hmatch |]. split.
      * intros i Hlow Hhigh. rewrite length_app in Hhigh. simpl in Hhigh. lia.
      * intros j later Hlt Hj. eauto.
    + destruct (ScopeContext.SearchForDefinition prefix below) as [[r s'] | |] eqn:Hbelow;
        try discriminate.
      inversion H. subst r stack_after.
      destruct (IH l s' eq_refl) as (vnames & vname & Hscope & Hat & Hmatch & Habove & Hlater).
      assert (Hin : scope_index l < length below) by (apply nth_error_Some; congruence).
      exists vnames, vname. rewrite nth_error_app1 by exact Hin.
      split; [exact Hscope |]. split; [exact Hat |]. split; [exact Hmatch |].
      split; [| exact Hlater].
      intros i Hlow Hhigh. rewrite length_app in Hhigh. simpl in Hhigh.
      destruct (Nat.lt_ge_cases i (length below)) as [Hi | Hi].
      * rewrite nth_error_app1 by exact Hi. auto.
      * replace i with (length below) by lia.
        rewrite nth_error_app2, Nat.sub_diag by lia.
        exists (Some top). split; [reflexivity |]. exists top. split; [reflexivity |].
        apply (no_match_in_scope prefix (length below)). exact Hfirst.
Qed.

Lemma SearchForDefinition_result_is_a_live_element_witness :
  exists vnames vname,
    nth_error SearchExamples.null_below_foo 1 = Some (Some vnames) /\
    nth_error vnames 2 = Some vname /\
    StartsWith (signature vname) "x#variable" = true /\
    (forall i, 1 < i -> i < length SearchExamples.null_below_foo ->
               exists scope, nth_error SearchExamples.null_below_foo i = Some scope /\
                             passed_over "x#variable" scope) /\
    (forall j later, 2 < j -> nth_error vnames j = Some later ->
                     StartsWith (signature later) "x#variable" = false).
Proof.
  apply (SearchForDefinition_result_is_a_live_element
           "x#variable" SearchExamples.null_below_foo (mkLocation 1 2)
           SearchExamples.null_below_foo).
  reflexivity.
Defined.

Lemma split_at_last_scope (below above stack_ : ScopeContext.t) (vnames : Scope) :
  stack_ ++ [Some vnames] = below ++ nullptr :: above ->
  exists above', above = above' ++ [Some vnames] /\ stack_ = below ++ nullptr :: above'.
Proof.
  intros H. destruct (stack_cases above) as [-> | (above' & last & ->)].
  - change (below ++ [nullptr]) with (below ++ [@None Scope]) in H.
    apply app_inj_tail in H. destruct H as [_ H]. discriminate.
  - change (below ++ nullptr :: above' ++ [last])
      with (below ++ (nullptr :: above') ++ [last]) in H.
    rewrite app_assoc in H. apply app_inj_tail in H. destruct H as [Hstack Hlast].
    exists above'. subst last. split; [reflexivity | exact Hstack].
Qed.

(** X2: the search never aborts, and it dereferences a null pointer exactly
    when the stack holds a null scope pointer above which every pointer is
    non-null and points at a scope without a match; a null pointer below a
    scope with a match is never reached. *)
Theorem SearchForDefinition_reaches_null_exactly_when
    (prefix : string) (stack_ : ScopeContext.t) :
  ScopeContext.SearchForDefinition prefix stack_ <> Fatal /\
  (ScopeContext.SearchForDefinition prefix stack_ = Undefined <->
   exists below above,
     stack_ = below ++ nullptr :: above /\ Forall (passed_over prefix) above).
Proof.
  induction stack_ as [| scope stack_ [IHfatal IH]] using rev_ind.
  - rewrite SearchForDefinition_nil. split; [discriminate |]. split; [discriminate |].
    intros (below & above & H & _). destruct below; discriminate.
  - rewrite SearchForDefinition_snoc. destruct scope as [vnames |].
    + pose proof (no_match_in_scope prefix (length stack_) vnames) as Hnone.
      destruct (ScopeContext.first_with_prefix prefix
                  (ScopeContext.declarations_latest_first (length stack_) vnames))
        as [l |].
      * split; [discriminate |]. split; [discriminate |].
        intros (below & above & Hsplit & Habove).
        apply split_at_last_scope in Hsplit.
        destruct Hsplit as (above' & -> & _).
        apply Forall_app in Habove. destruct Habove as [_ Hlast].
        inversion Hlast as [| ? ? (top & Htop & Hno) _]. inversion Htop. subst top.
        apply Hnone in Hno. discriminate.
      * assert (Hpassed : passed_over prefix (Some vnames)).
        { exists vnames. split; [reflexivity |]. apply Hnone. reflexivity. }
        destruct (ScopeContext.SearchForDefinition prefix stack_) as [[r s'] | |].
        -- split; [discriminate |]. split; [discriminate |].
           intros (below & above & Hsplit & Habove).
           apply split_at_last_scope in Hsplit.
           destruct Hsplit as (above' & -> & Hstack).
           apply Forall_app in Habove. destruct Habove as [Habove _].
           assert (Hundefined : @Returns (pointer Location * ScopeContext.t) (r, s')
                                = Undefined) by (apply IH; eauto).
           discriminate.
        -- now elim IHfatal.
        -- split; [discriminate |]. split; [| reflexivity].
           intros _. destruct (proj1 IH eq_refl) as (below & above & -> & Habove).
           exists below, (above ++ [Some vnames]). split.
           ++ rewrite <- app_assoc. reflexivity.
           ++ apply Forall_app. split; [exact Habove | repeat constructor; exact Hpassed].
    + split; [discriminate |]. split; [| reflexivity].
      intros _. exists stack_, []. split; [reflexivity | constructor].
Qed.

Lemma SearchForDefinition_reaches_null_exactly_when_witness :
  ScopeContext.SearchForDefinition "x#variable" SearchExamples.null_below_y = Undefined /\
  ScopeContext.SearchForDefinition "y#variable" SearchExamples.null_below_y
  = Returns (Some (mkLocation 1 0), SearchExamples.null_below_y).
Proof.
  split; [| reflexivity].
  apply (proj2 (SearchForDefinition_reaches_null_exactly_when
                  "x#variable" SearchExamples.null_below_y)).
  exists [], [Some [Examples.vname_of "y#variable#foo#module#top.sv"]].
  split; [reflexivity |]. repeat constructor.
  eexists. split; [reflexivity |]. repeat constructor.
Defined.

(** ** [top] and the search *)

Lemma ScopeContext_top_inversion (stack_ stack_after : ScopeContext.t) (vnames : Scope) :
  ScopeContext.top stack_ = Returns (vnames, stack_after) ->
  stack_after = stack_ /\ exists below, stack_ = below ++ [Some vnames].
Proof.
  intros H. split; [exact (read_only_ScopeContext_top _ _ _ H) |].
  unfold ScopeContext.top, AutoPopStackBase.top, bind, get in H.
  destruct (stack_cases stack_) as [-> | (below & [top |] & ->)].
  - discriminate.
  - rewrite rev_unit in H. simpl in H. inversion H. eauto.
  - rewrite rev_unit in H. discriminate.
Qed.

(** X3: when [top] returns a scope that holds a VName whose signature
    starts with the prefix, the search returns a pointer into that scope, at
    a VName with the prefix declared no earlier than the given one; what the
    stack holds below the top scope, null pointers included, is not looked
    at. *)
Theorem SearchForDefinition_top_scope_first
    (prefix : string) (stack_ stack_after : ScopeContext.t) (vnames : Scope)
    (j : nat) (vname : VName) :
  ScopeContext.top stack_ = Returns (vnames, stack_after) ->
  nth_error vnames j = Some vname ->
  StartsWith (signature vname) prefix = true ->
  exists l found,
    ScopeContext.SearchForDefinition prefix stack_ = Returns (Some l, stack_) /\
    S (scope_index l) = length stack_ /\
    nth_error vnames (vname_index l) = Some found /\
    StartsWith (signature found) prefix = true /\
    j <= vname_index l.
Proof.
  intros Htop Hj Hmatch.
  apply ScopeContext_top_inversion in Htop. destruct Htop as (_ & below & ->).
  rewrite SearchForDefinition_snoc.
  match goal with
  | |- context [ScopeContext.declarations_latest_first ?n vnames] =>
      pose proof (first_in_scope prefix n vnames) as Hfirst;
      destruct (ScopeContext.first_with_prefix prefix
                  (ScopeContext.declarations_latest_first n vnames)) as [l |]
  end.
  - destruct Hfirst as (Hi & (found & Hat & Hfound) & Hlater).
    exists l, found. split; [reflexivity |].
    rewrite length_app. simpl. unfold pointer in *.
    split; [lia |]. split; [exact Hat |].
    split; [exact Hfound |].
    destruct (Nat.le_gt_cases j (vname_index l)) as [Hle | Hgt]; [exact Hle |].
    rewrite (Hlater j vname Hj Hgt) in Hmatch. discriminate.
  - rewrite (Hfirst j vname Hj) in Hmatch. discriminate.
Qed.

Lemma SearchForDefinition_top_scope_first_witness :
  exists l found,
    ScopeContext.SearchForDefinition "x#variable" SearchExamples.null_below_foo
      = Returns (Some l, SearchExamples.null_below_foo) /\
    S (scope_index l) = length SearchExamples.null_below_foo /\
    nth_error Examples.foo_scope (vname_index l) = Some found /\
    StartsWith (signature found) "x#variable" = true /\
    1 <= vname_index l.
Proof.
  apply (SearchForDefinition_top_scope_first
           "x#variable" SearchExamples.null_below_foo SearchExamples.null_below_foo
           Examples.foo_scope 1 (Examples.vname_of "x#variable#foo#module#top.sv")).
  - reflexivity.
  - reflexivity.
  - reflexivity.
Defined.

Lemma StartsWith_empty (text : string) : StartsWith text "" = true.
Proof. destruct text; reflexivity. Qed.

(** X4: with the empty prefix every signature matches: the search returns
    the VName declared last in the innermost scope that is not empty. *)
Theorem SearchForDefinition_empty_prefix
    (below empties : ScopeContext.t) (vnames : Scope) (last_declared : VName) :
  Forall (fun scope => scope = Some []) empties ->
  ScopeContext.SearchForDefinition ""
    (below ++ Some (vnames ++ [last_declared]) :: empties)
  = Returns (Some (mkLocation (length below) (length vnames)),
             below ++ Some (vnames ++ [last_declared]) :: empties).
Proof.
  induction empties as [| scope empties IH] using rev_ind; intros Hempty.
  - rewrite SearchForDefinition_snoc, declarations_latest_first_snoc.
    unfold ScopeContext.first_with_prefix. simpl.
    rewrite StartsWith_empty. reflexivity.
  - apply Forall_app in Hempty. destruct Hempty as [Hempties Hscope].
    inversion Hscope as [| ? ? -> _].
    change (below ++ Some (vnames ++ [last_declared]) :: empties ++ [Some []])
      with (below ++ (Some (vnames ++ [last_declared]) :: empties) ++ [Some []]).
    rewrite app_assoc, SearchForDefinition_snoc.
    rewrite (proj2 (no_match_in_scope "" _ []) (Forall_nil _)).
    match goal with
    | |- match ?run with _ => _ end = _ =>
        match type of (IH Hempties) with
        | _ = ?result => replace run with result by (symmetry; exact (IH Hempties))
        end
    end.
    reflexivity.
Qed.

Lemma SearchForDefinition_empty_prefix_witness :
  ScopeContext.SearchForDefinition "" SearchExamples.empty_scope_in_foo
  = Returns (Some (mkLocation 1 2), SearchExamples.empty_scope_in_foo).
Proof.
  apply (SearchForDefinition_empty_prefix
           [Some Examples.file_scope] [Some []]
           [Examples.vname_of "y#variable#foo#module#top.sv";
            Examples.vname_of "x#variable#foo#module#top.sv"]
           (Examples.vname_of "x#variable#foo#module#top.sv")).
  repeat constructor.
Defined.

(** ** Shorter and longer prefixes *)

Lemma prefix_of_longer (p q text : string) :
  String.prefix (p ++ q) text = true -> String.prefix p text = true.
Proof.
  revert text. induction p as [| c p IH]; intros text H.
  - destruct text; reflexivity.
  - destruct text as [| d text]; simpl in H |- *; [discriminate |].
    destruct (ascii_dec c d); [apply IH; exact H | discriminate].
Qed.

Lemma prefix_of_itself (text : string) : String.prefix text text = true.
Proof.
  induction text as [| c text IH]; simpl; [reflexivity |].
  destruct (ascii_dec c c) as [_ | Hne]; [exact IH | now elim Hne].
Qed.

(** X5: a shorter prefix finds at least as much: when the search for a
    prefix followed by more text returns a VName, the search for the prefix
    alone returns that VName or one that is looked at before it, and never
    null. *)
Theorem SearchForDefinition_shorter_prefix
    (p q : string) (stack_ stack_after : ScopeContext.t) (l : Location) :
  ScopeContext.no_null_scope stack_ ->
  ScopeContext.SearchForDefinition (p ++ q) stack_ = Returns (Some l, stack_after) ->
  exists l',
    ScopeContext.SearchForDefinition p stack_ = Returns (Some l', stack_) /\
    (l' = l \/ ScopeContext.searched_before l' l).
Proof.
  intros Hlive Hlong.
  destruct (SearchForDefinition_first_match (p ++ q) stack_ Hlive)
    as (rlong & Hrun & Hfirst).
  rewrite Hrun in Hlong. inversion Hlong. subst rlong stack_after. clear Hlong.
  destruct Hfirst as ((vname & Hat & Hmatch) & _).
  apply prefix_of_longer in Hmatch.
  destruct (SearchForDefinition_first_match p stack_ Hlive) as ([l' |] & Hshort & Hfirst).
  - exists l'. split; [exact Hshort |].
    destruct (searched_before_trichotomy l' l) as [Heq | [Hbefore | Hafter]];
      [left; exact Heq | right; exact Hbefore |].
    destruct Hfirst as (_ & Hearlier).
    pose proof (Hearlier l vname Hat Hafter) as Hno.
    unfold StartsWith in Hno. congruence.
  - pose proof (Hfirst l vname Hat) as Hno. unfold StartsWith in Hno. congruence.
Qed.

Lemma SearchForDefinition_shorter_prefix_witness :
  exists l',
    ScopeContext.SearchForDefinition "x#variable" Examples.scopes_in_foo
      = Returns (Some l', Examples.scopes_in_foo) /\
    (l' = mkLocation 0 0 \/ ScopeContext.searched_before l' (mkLocation 0 0)).
Proof.
  apply (SearchForDefinition_shorter_prefix
           "x#variable" "#top.sv" Examples.scopes_in_foo Examples.scopes_in_foo
           (mkLocation 0 0)).
  - unfold ScopeContext.no_null_scope, Examples.scopes_in_foo.
    repeat constructor; discriminate.
  - reflexivity.
Defined.

(** ** Appending to the top scope and looking it up *)

Lemma first_with_prefix_cons (prefix : string) (l : Location) (vname : VName)
    (rest : list (Location * VName)) :
  ScopeContext.first_with_prefix prefix ((l, vname) :: rest)
  = if StartsWith (signature vname) prefix
    then Some l
    else ScopeContext.first_with_prefix prefix rest.
Proof.
  unfold ScopeContext.first_with_prefix. simpl.
  destruct (StartsWith (signature vname) prefix); reflexivity.
Qed.

Lemma push_back_top_inversion (vname : VName) (u : unit)
    (stack_ stack_after : ScopeContext.t) :
  ScopeContext.push_back_top vname stack_ = Returns (u, stack_after) ->
  exists below vnames,
    stack_ = below ++ [Some vnames] /\ stack_after = below ++ [Some (vnames ++ [vname])].
Proof.
  unfold ScopeContext.push_back_top, ScopeContext.top, AutoPopStackBase.top.
  destruct (stack_cases stack_) as [-> | (below & [top |] & ->)].
  - discriminate.
  - unfold bind, get. simpl. rewrite rev_unit. simpl. rewrite removelast_last.
    intros H. inversion H. eauto.
  - unfold bind, get. simpl. rewrite rev_unit. simpl. discriminate.
Qed.

(** X6: a VName appended to the scope [top] returns is found at once: the
    search for its own signature, and for any prefix its signature starts
    with, returns the pointer to the appended element, whatever the stack
    holds elsewhere. *)
Theorem SearchForDefinition_finds_appended_vname
    (vname : VName) (u : unit) (stack_ stack_after : ScopeContext.t) :
  ScopeContext.push_back_top vname stack_ = Returns (u, stack_after) ->
  length stack_after = length stack_ /\
  (forall prefix,
     StartsWith (signature vname) prefix = true ->
     exists l,
       ScopeContext.SearchForDefinition prefix stack_after = Returns (Some l, stack_after) /\
       ScopeContext.at_location stack_after l = Some vname /\
       S (scope_index l) = length stack_after) /\
  (exists l,
     ScopeContext.SearchForDefinition (signature vname) stack_after
       = Returns (Some l, stack_after) /\
     ScopeContext.at_location stack_after l = Some vname).
Proof.
  intros Hpush. apply push_back_top_inversion in Hpush.
  destruct Hpush as (below & vnames & -> & ->).
  assert (Hfound : forall prefix,
             StartsWith (signature vname) prefix = true ->
             exists l,
               ScopeContext.SearchForDefinition prefix (below ++ [Some (vnames ++ [vname])])
                 = Returns (Some l, below ++ [Some (vnames ++ [vname])]) /\
               ScopeContext.at_location (below ++ [Some (vnames ++ [vname])]) l
                 = Some vname /\
               S (scope_index l) = length (below ++ [Some (vnames ++ [vname])])).
  { intros prefix Hmatch. exists (mkLocation (length below) (length vnames)).
    rewrite SearchForDefinition_snoc, declarations_latest_first_snoc,
      first_with_prefix_cons, Hmatch.
    split; [reflexivity |]. split.
    - rewrite at_location_top by reflexivity. simpl.
      rewrite nth_error_app2, Nat.sub_diag by lia. reflexivity.
    - rewrite length_app. simpl. lia. }
  split; [rewrite !length_app; reflexivity |]. split; [exact Hfound |].
  destruct (Hfound (signature vname) (prefix_of_itself _)) as (l & Hrun & Hat & _).
  eauto.
Qed.

Lemma SearchForDefinition_finds_appended_vname_witness :
  exists l,
    ScopeContext.SearchForDefinition "z#variable"
      [nullptr; Some (Examples.foo_scope ++ [Examples.vname_of "z#variable#foo#module#top.sv"])]
      = Returns (Some l,
                 [nullptr;
                  Some (Examples.foo_scope
                          ++ [Examples.vname_of "z#variable#foo#module#top.sv"])]) /\
    ScopeContext.at_location
      [nullptr; Some (Examples.foo_scope ++ [Examples.vname_of "z#variable#foo#module#top.sv"])]
      l = Some (Examples.vname_of "z#variable#foo#module#top.sv") /\
    S (scope_index l) = 2.
Proof.
  apply (proj1 (proj2 (SearchForDefinition_finds_appended_vname
                         (Examples.vname_of "z#variable#foo#module#top.sv") tt
                         SearchExamples.null_below_foo
                         [nullptr;
                          Some (Examples.foo_scope
                                  ++ [Examples.vname_of "z#variable#foo#module#top.sv"])]
                         eq_refl))
           "z#variable"%string).
  reflexivity.
Defined.

(** ** What the search looks at *)

Lemma first_in_scope_by_signatures (prefix : string) (i : nat) (vnames1 vnames2 : Scope) :
  map signature vnames1 = map signature vnames2 ->
  ScopeContext.first_with_prefix prefix (ScopeContext.declarations_latest_first i vnames1)
  = ScopeContext.first_with_prefix prefix (ScopeContext.declarations_latest_first i vnames2).
Proof.
  revert vnames2.
  induction vnames1 as [| v1 vnames1 IH] using rev_ind; intros vnames2 Hsame.
  - simpl in Hsame. symmetry in Hsame. apply map_eq_nil in Hsame. subst vnames2.
    reflexivity.
  - destruct (stack_cases vnames2) as [-> | (rest2 & v2 & ->)].
    + rewrite map_app in Hsame. simpl in Hsame.
      destruct (map signature vnames1); discriminate.
    + rewrite !map_app in Hsame. simpl in Hsame. apply app_inj_tail in Hsame.
      destruct Hsame as [Hrest Hlast].
      assert (Hlength : length vnames1 = length rest2)
        by (rewrite <- (length_map signature vnames1), Hrest; apply length_map).
      rewrite !declarations_latest_first_snoc.
      specialize (IH rest2 Hrest). unfold ScopeContext.first_with_prefix in IH |- *.
      simpl. rewrite Hlast, Hlength.
      destruct (StartsWith (signature v2) prefix); [reflexivity | exact IH].
Qed.

(** X7: the search looks at signatures only: on two stacks that hold the
    same signatures in the same places, whatever the paths, roots, corpora
    and languages of their VNames, the search ends the same way and returns
    the same location. *)
Theorem SearchForDefinition_looks_at_signatures_only
    (prefix : string) (stack1 stack2 : ScopeContext.t) :
  signatures_of stack1 = signatures_of stack2 ->
  match ScopeContext.SearchForDefinition prefix stack1,
        ScopeContext.SearchForDefinition prefix stack2 with
  | Returns (result1, _), Returns (result2, _) => result1 = result2
  | Fatal, Fatal => True
  | Undefined, Undefined => True
  | _, _ => False
  end.
Proof.
  revert stack2.
  induction stack1 as [| scope1 below1 IH] using rev_ind; intros stack2 Hsame.
  - unfold signatures_of in Hsame. simpl in Hsame. symmetry in Hsame.
    apply map_eq_nil in Hsame. subst stack2. reflexivity.
  - destruct (stack_cases stack2) as [-> | (below2 & scope2 & ->)].
    + unfold signatures_of in Hsame. rewrite map_app in Hsame. simpl in Hsame.
      symmetry in Hsame. now apply app_cons_not_nil in Hsame.
    + unfold signatures_of in Hsame. rewrite !map_app in Hsame. simpl in Hsame.
      apply app_inj_tail in Hsame. destruct Hsame as [Hbelow Hscope].
      assert (Hlength : length below1 = length below2).
      { pose proof (f_equal (@length _) Hbelow) as Hlengths.
        rewrite !length_map in Hlengths. exact Hlengths. }
      specialize (IH below2 Hbelow). rewrite !SearchForDefinition_snoc.
      destruct scope1 as [vnames1 |], scope2 as [vnames2 |];
        try discriminate Hscope; [| exact I].
      simpl in Hscope. inversion Hscope as [Hvnames].
      rewrite Hlength, (first_in_scope_by_signatures prefix _ vnames1 vnames2 Hvnames).
      destruct (ScopeContext.first_with_prefix prefix
                  (ScopeContext.declarations_latest_first (length below2) vnames2));
        [reflexivity |].
      destruct (ScopeContext.SearchForDefinition prefix below1) as [[r1 s1] | |],
               (ScopeContext.SearchForDefinition prefix below2) as [[r2 s2] | |];
        exact IH.
Qed.

Lemma SearchForDefinition_looks_at_signatures_only_witness :
  match ScopeContext.SearchForDefinition "x#variable" Examples.scopes_in_foo,
        ScopeContext.SearchForDefinition "x#variable" SearchExamples.scopes_of_another_file
  with
  | Returns (result1, _), Returns (result2, _) => result1 = result2
  | Fatal, Fatal => True
  | Undefined, Undefined => True
  | _, _ => False
  end.
Proof.
  apply (SearchForDefinition_looks_at_signatures_only
           "x#variable" Examples.scopes_in_foo SearchExamples.scopes_of_another_file).
  reflexivity.
Defined.

(** X8: a scope on top of the stack that holds no VName with the prefix, an
    empty scope above all, hides nothing: the search ends as it does on the
    stack below that scope and returns the same location. *)
Theorem SearchForDefinition_passes_over_scope
    (prefix : string) (stack_ : ScopeContext.t) (vnames : Scope) :
  Forall (fun vname => StartsWith (signature vname) prefix = false) vnames ->
  ScopeContext.SearchForDefinition prefix (stack_ ++ [Some vnames])
  = match ScopeContext.SearchForDefinition prefix stack_ with
    | Returns (result, _) => Returns (result, stack_ ++ [Some vnames])
    | Fatal => Fatal
    | Undefined => Undefined
    end.
Proof.
  intros Hnone. rewrite SearchForDefinition_snoc.
  rewrite (proj2 (no_match_in_scope prefix (length stack_) vnames) Hnone).
  reflexivity.
Qed.

Lemma SearchForDefinition_passes_over_scope_witness :
  ScopeContext.SearchForDefinition "x#variable" (Examples.scopes_in_foo ++ [Some []])
  = match ScopeContext.SearchForDefinition "x#variable" Examples.scopes_in_foo with
    | Returns (result, _) => Returns (result, Examples.scopes_in_foo ++ [Some []])
    | Fatal => Fatal
    | Undefined => Undefined
    end.
Proof.
  apply (SearchForDefinition_passes_over_scope "x#variable" Examples.scopes_in_foo []).
  constructor.
Defined.

(** X9: a VName that is on the stack is never missed by the search for its
    own signature: the search returns that VName or one looked at before it
    whose signature starts with the signature searched for. *)
Theorem SearchForDefinition_finds_stored_vname
    (stack_ : ScopeContext.t) (l : Location) (vname : VName) :
  ScopeContext.no_null_scope stack_ ->
  ScopeContext.at_location stack_ l = Some vname ->
  exists l' found,
    ScopeContext.SearchForDefinition (signature vname) stack_ = Returns (Some l', stack_) /\
    ScopeContext.at_location stack_ l' = Some found /\
    StartsWith (signature found) (signature vname) = true /\
    (l' = l \/ ScopeContext.searched_before l' l).
Proof.
  intros Hlive Hat.
  assert (Hself : StartsWith (signature vname) (signature vname) = true)
    by apply prefix_of_itself.
  destruct (SearchForDefinition_first_match (signature vname) stack_ Hlive)
    as ([l' |] & Hrun & Hfirst).
  - destruct Hfirst as ((found & Hfound & Hmatch) & Hearlier).
    exists l', found. split; [exact Hrun |]. split; [exact Hfound |].
    split; [exact Hmatch |].
    destruct (searched_before_trichotomy l' l) as [Heq | [Hbefore | Hafter]];
      [left; exact Heq | right; exact Hbefore |].
    rewrite (Hearlier l vname Hat Hafter) in Hself. discriminate.
  - rewrite (Hfirst l vname Hat) in Hself. discriminate.
Qed.

Lemma SearchForDefinition_finds_stored_vname_witness :
  exists l' found,
    ScopeContext.SearchForDefinition "foo#module#top.sv" Examples.scopes_in_foo
      = Returns (Some l', Examples.scopes_in_foo) /\
    ScopeContext.at_location Examples.scopes_in_foo l' = Some found /\
    StartsWith (signature found) "foo#module#top.sv" = true /\
    (l' = mkLocation 0 1 \/ ScopeContext.searched_before l' (mkLocation 0 1)).
Proof.
  apply (SearchForDefinition_finds_stored_vname
           Examples.scopes_in_foo (mkLocation 0 1)
           (Examples.vname_of "foo#module#top.sv")).
  - unfold ScopeContext.no_null_scope, Examples.scopes_in_foo.
    repeat constructor; discriminate.
  - reflexivity.
Defined.

(** X10: appending a VName to the scope [top] returns leaves every search
    whose prefix the appended signature does not start with as it was: it
    ends the same way and returns the same location. *)
Theorem SearchForDefinition_after_push_back
    (prefix : string) (vname : VName) (u : unit) (stack_ stack_after : ScopeContext.t) :
  ScopeContext.push_back_top vname stack_ = Returns (u, stack_after) ->
  StartsWith (signature vname) prefix = false ->
  ScopeContext.SearchForDefinition prefix stack_after
  = match ScopeContext.SearchForDefinition prefix stack_ with
    | Returns (result, _) => Returns (result, stack_after)
    | Fatal => Fatal
    | Undefined => Undefined
    end.
Proof.
  intros Hpush Hmatch. apply push_back_top_inversion in Hpush.
  destruct Hpush as (below & vnames & -> & ->).
  rewrite !SearchForDefinition_snoc, declarations_latest_first_snoc,
    first_with_prefix_cons, Hmatch.
  unfold pointer in *.
  destruct (ScopeContext.first_with_prefix prefix
              (ScopeContext.declarations_latest_first (length below) vnames));
    [reflexivity |].
  destruct (ScopeContext.SearchForDefinition prefix below) as [[r s'] | |]; reflexivity.
Qed.

Lemma SearchForDefinition_after_push_back_witness :
  ScopeContext.SearchForDefinition "x#variable"
    [nullptr; Some (Examples.foo_scope ++ [Examples.vname_of "z#variable#foo#module#top.sv"])]
  = match ScopeContext.SearchForDefinition "x#variable" SearchExamples.null_below_foo with
    | Returns (result, _) =>
        Returns (result,
                 [nullptr;
                  Some (Examples.foo_scope
                          ++ [Examples.vname_of "z#variable#foo#module#top.sv"])])
    | Fatal => Fatal
    | Undefined => Undefined
    end.
Proof.
  apply (SearchForDefinition_after_push_back
           "x#variable" (Examples.vname_of "z#variable#foo#module#top.sv") tt
           SearchExamples.null_below_foo
           [nullptr;
            Some (Examples.foo_scope
                    ++ [Examples.vname_of "z#variable#foo#module#top.sv"])]).
  - reflexivity.
  - reflexivity.
Defined.

(** X11: [top] of either stack returns exactly when the last pointer pushed
    is not null, then with the VName or scope it points at and the stack
    unchanged; on a null last pointer it aborts, where the search, which
    has no such guard, dereferences the pointer. *)
Theorem top_guards_the_null_pointer
    (names : VNameContext.t) (scopes : ScopeContext.t) :
  (forall vname names_after,
     VNameContext.top names = Returns (vname, names_after) <->
     names_after = names /\ exists below, names = below ++ [Some vname]) /\
  (forall vnames scopes_after,
     ScopeContext.top scopes = Returns (vnames, scopes_after) <->
     scopes_after = scopes /\ exists below, scopes = below ++ [Some vnames]) /\
  (forall below, names = below ++ [nullptr] -> VNameContext.top names = Fatal) /\
  (forall below prefix,
     scopes = below ++ [nullptr] ->
     ScopeContext.top scopes = Fatal /\
     ScopeContext.SearchForDefinition prefix scopes = Undefined).
Proof.
  split; [| split; [| split]].
  - intros vname names_after. split.
    + intros H. split; [exact (read_only_VNameContext_top _ _ _ H) |].
      unfold VNameContext.top, AutoPopStackBase.top, bind, get in H.
      destruct (stack_cases names) as [-> | (below & [top |] & ->)].
      * discriminate.
      * rewrite rev_unit in H. simpl in H. inversion H. eauto.
      * rewrite rev_unit in H. discriminate.
    + intros (-> & below & ->).
      unfold VNameContext.top, AutoPopStackBase.top, bind, get.
      rewrite rev_unit. reflexivity.
  - intros vnames scopes_after. split.
    + apply ScopeContext_top_inversion.
    + intros (-> & below & ->).
      unfold ScopeContext.top, AutoPopStackBase.top, bind, get.
      rewrite rev_unit. reflexivity.
  - intros below ->. apply VNameContext_top_null.
  - intros below prefix ->. split.
    + unfold ScopeContext.top, AutoPopStackBase.top, bind, get.
      rewrite rev_unit. reflexivity.
    + apply SearchForDefinition_snoc.
Qed.

Lemma top_guards_the_null_pointer_witness :
  ScopeContext.top [Some Examples.file_scope; nullptr] = Fatal /\
  ScopeContext.SearchForDefinition "x#variable" [Some Examples.file_scope; nullptr]
  = Undefined.
Proof.
  apply (proj2 (proj2 (proj2 (top_guards_the_null_pointer
                                [] [Some Examples.file_scope; nullptr])))
           [Some Examples.file_scope] "x#variable"%string).
  reflexivity.
Defined.
